(** * csv_to_md: a shallow embedding of scripts/csv_to_md.py

    The script reads a CSV of simulation results with pandas, sorts the
    frame by PROFIT_USDT in descending order and writes a Markdown table.
    The development models the values pandas hands to the script, the
    Python format specifications the f-string applies to them, the file
    and console effects of the function body, and the try/except that
    wraps it. *)

From Stdlib Require Import ZArith NArith QArith Qabs Lia List Ascii String.
From Stdlib Require Import Floats.SpecFloat Sorting Mergesort Orders.
From stdpp Require Import base option list strings gmap.

Local Open Scope string_scope.
Local Open Scope list_scope.
Local Open Scope Z_scope.

(** ** Decimal text *)

Module Dec.

Definition digit_char (d : Z) : ascii :=
  ascii_of_N (Z.to_N (48 + d)).

(** The decimal digits of a non-negative integer, most significant
    first, as Python prints them. *)
Fixpoint digits_fuel (fuel : nat) (n : Z) (acc : string) : string :=
  match fuel with
  | O => acc
  | S fuel' =>
      let acc' := String (digit_char (n mod 10)) acc in
      if n / 10 =? 0 then acc' else digits_fuel fuel' (n / 10) acc'
  end.

Definition of_Z_nonneg (n : Z) : string :=
  digits_fuel (S (Z.to_nat (Z.log2 n))) n "".

(** [str(n)] for a Python int. *)
Definition of_Z (z : Z) : string :=
  if z <? 0 then String "-" (of_Z_nonneg (- z)) else of_Z_nonneg z.

(** Exactly [k] decimal digits of [r], the least significant [k]. *)
Fixpoint fixed_digits (k : nat) (r : Z) : string :=
  match k with
  | O => ""
  | S k' => fixed_digits k' (r / 10) +:+ String (digit_char (r mod 10)) ""
  end.

(** Reading decimal text back. *)
Definition digit_val (c : ascii) : option Z :=
  let n := Z.of_N (N_of_ascii c) in
  if (48 <=? n) && (n <=? 57) then Some (n - 48) else None.

Fixpoint parse_acc (s : string) (acc : Z) : option Z :=
  match s with
  | EmptyString => Some acc
  | String c s' =>
      match digit_val c with
      | Some d => parse_acc s' (10 * acc + d)
      | None => None
      end
  end.

Definition parse_nonneg (s : string) : option Z :=
  match s with
  | EmptyString => None
  | _ => parse_acc s 0
  end.

End Dec.

(** ** Values of a pandas frame

    [read_csv] infers one dtype per column: int64, uint64, float64 or
    object.
    A cell the script reads from a row is a Python int, a Python float
    (an IEEE binary64, kept here as the standard library's [spec_float])
    or a str. *)

Inductive Scalar : Type :=
| SInt (z : Z)
| SFloat (f : spec_float)
| SStr (s : string).

(** Round [n / d] (with [0 < d]) to the nearest integer, ties to even. *)
Definition round_half_even (n d : Z) : Z :=
  let q := n / d in
  let r := n mod d in
  if 2 * r <? d then q
  else if d <? 2 * r then q + 1
  else if Z.even q then q else q + 1.

(** The conversion of an int to the nearest binary64 (ties to even), as
    [float(z)] performs it inside [format] for the presentation type
    [f].  Below 2^53 it is exact; above, the low bits are rounded off.
    Integers of a pandas int64 column stay far below the overflow
    threshold of binary64. *)
Definition int_to_float (z : Z) : spec_float :=
  if z =? 0 then S754_zero false
  else
    let a := Z.abs z in
    let k := Z.log2 a - 52 in
    if k <=? 0 then S754_finite (z <? 0) (Z.to_pos a) 0
    else S754_finite (z <? 0) (Z.to_pos (round_half_even a (2 ^ k))) k.

(** The magnitude of a finite float, scaled by [10^k], rounded to an
    integer: the digits [format(x, '.kf')] prints. *)
Definition scaled_round (k : nat) (m : positive) (e : Z) : Z :=
  if 0 <=? e
  then Z.pos m * 2 ^ e * 10 ^ Z.of_nat k
  else round_half_even (Z.pos m * 10 ^ Z.of_nat k) (2 ^ (- e)).

Definition sign_text (s : bool) : string := if s then "-" else "".

(** Fixed-point text of a rounded magnitude [r] with [k] decimals. *)
Definition fixed_text (k : nat) (r : Z) : string :=
  Dec.of_Z_nonneg (r / 10 ^ Z.of_nat k)
  +:+ match k with
      | O => ""
      | S _ => String "." (Dec.fixed_digits k r)
      end.

(** [format(x, '.kf')] for a Python float. *)
Definition format_float_f (k : nat) (x : spec_float) : string :=
  match x with
  | S754_nan => "nan"
  | S754_infinity s => sign_text s +:+ "inf"
  | S754_zero s => sign_text s +:+ fixed_text k 0
  | S754_finite s m e => sign_text s +:+ fixed_text k (scaled_round k m e)
  end.

(** The binary64 nearest to -2.333. *)
Definition f_m2_333 : spec_float :=
  S754_finite true 5253448965327684 (-51).

(** The rational a float denotes; [None] for nan and the infinities. *)
Definition finite_Q (s : bool) (m : positive) (e : Z) : Q :=
  let mag := if 0 <=? e
             then inject_Z (Z.pos m * 2 ^ e)
             else Qmake (Z.pos m) (Z.to_pos (2 ^ (- e))) in
  if s then Qopp mag else mag.

Definition float_Q (x : spec_float) : option Q :=
  match x with
  | S754_zero _ => Some 0%Q
  | S754_finite s m e => Some (finite_Q s m e)
  | S754_infinity _ | S754_nan => None
  end.

Definition same_value (x y : spec_float) : bool :=
  match float_Q x, float_Q y with
  | Some a, Some b => Qeq_bool a b
  | _, _ => false
  end.

(** ** Frames *)

Inductive Column : Type :=
| ColInt (l : list Z)
| ColFloat (l : list spec_float)
| ColObject (l : list Scalar).

Inductive DType : Type := int64 | uint64 | float64 | object.

Definition fits_int64 (z : Z) : bool := (- 2 ^ 63 <=? z) && (z <? 2 ^ 63).
Definition fits_uint64 (z : Z) : bool := (0 <=? z) && (z <? 2 ^ 64).

(** The dtype pandas gives a column.  A column of integers is int64
    when every value fits; uint64 when one does not and all are
    non-negative and below 2^64; the integers stay Python ints in an
    object column otherwise ([read_csv] itself then reads the column as
    floats). *)
Definition col_dtype (c : Column) : DType :=
  match c with
  | ColInt l =>
      if forallb fits_int64 l then int64
      else if forallb fits_uint64 l then uint64
      else object
  | ColFloat _ => float64
  | ColObject _ => object
  end.

Definition col_len (c : Column) : nat :=
  match c with
  | ColInt l => length l
  | ColFloat l => length l
  | ColObject l => length l
  end.

(** A frame: the length of its index and its named columns, in file
    order. *)
Record DataFrame : Type := mkFrame {
  nrows : nat;
  columns : list (string * Column)
}.

Definition wf_frame (df : DataFrame) : Prop :=
  Forall (fun nc => col_len nc.2 = nrows df) (columns df)
  /\ NoDup (columns df).*1.

Fixpoint lookup_col (name : string) (cols : list (string * Column))
  : option Column :=
  match cols with
  | [] => None
  | (n, c) :: cols' =>
      if String.eqb n name then Some c else lookup_col name cols'
  end.

(** [l[idx]] for an integer indexer. *)
Definition take_list {A} (idx : list nat) (l : list A) : list A :=
  omap (fun i => l !! i) idx.

Definition take_col (idx : list nat) (c : Column) : Column :=
  match c with
  | ColInt l => ColInt (take_list idx l)
  | ColFloat l => ColFloat (take_list idx l)
  | ColObject l => ColObject (take_list idx l)
  end.

Definition take_rows (idx : list nat) (df : DataFrame) : DataFrame :=
  {| nrows := length idx;
     columns := map (fun nc => (nc.1, take_col idx nc.2)) (columns df) |}.

Definition is_dtype (d : DType) (c : Column) : bool :=
  match d, col_dtype c with
  | int64, int64 | uint64, uint64 | float64, float64 | object, object => true
  | _, _ => false
  end.

(** The dtype of the two-dimensional array behind [df.values], numpy's
    [result_type] of the column dtypes: object as soon as one column is;
    else the dtype the columns share; else float64, which is what int64
    with uint64 gives, and either of them with float64. *)
Definition common_dtype (cols : list (string * Column)) : DType :=
  if existsb (fun nc => is_dtype object nc.2) cols then object
  else if forallb (fun nc => is_dtype int64 nc.2) cols then int64
  else if forallb (fun nc => is_dtype uint64 nc.2) cols then uint64
  else float64.

(** The cell of row [i] in a column, after the cast to the common
    dtype. *)
Definition cell (dt : DType) (c : Column) (i : nat) : option Scalar :=
  match c with
  | ColInt l =>
      z ← l !! i;
      Some (match dt with
            | float64 => SFloat (int_to_float z)
            | _ => SInt z
            end)
  | ColFloat l => SFloat <$> l !! i
  | ColObject l => l !! i
  end.

(** A row as [iterrows] yields it: a Series indexed by column name. *)
Definition Row : Type := list (string * Scalar).

Definition row_at (df : DataFrame) (i : nat) : Row :=
  omap (fun nc => v ← cell (common_dtype (columns df)) nc.2 i; Some (nc.1, v))
       (columns df).

Definition iterrows (df : DataFrame) : list Row :=
  map (row_at df) (seq 0 (nrows df)).

(** ** Exceptions *)

Inductive Exception : Type :=
| KeyError (key : string)
| ValueError (msg : string)
| OSError (msg : string)
| ReadError (msg : string).

(** [str(e)]; a KeyError shows the repr of its key. *)
Definition exception_str (e : Exception) : string :=
  match e with
  | KeyError k => "'" +:+ k +:+ "'"
  | ValueError m | OSError m | ReadError m => m
  end.

(** [row[name]] *)
Fixpoint row_get (name : string) (r : Row) : Exception + Scalar :=
  match r with
  | [] => inl (KeyError name)
  | (n, v) :: r' => if String.eqb n name then inr v else row_get name r'
  end.

(** [format(v, '.kf')] *)
Definition format_f (k : nat) (v : Scalar) : Exception + string :=
  match v with
  | SInt z => inr (format_float_f k (int_to_float z))
  | SFloat f => inr (format_float_f k f)
  | SStr _ => inl (ValueError "Unknown format code 'f' for object of type 'str'")
  end.

(** ** Files and console *)

Record World : Type := mkWorld {
  files : gmap string string;     (* path -> contents *)
  unwritable : gset string;       (* paths [open(_, 'w')] fails on *)
  console : list string           (* lines printed so far *)
}.

(** Computations of the function body: they change the world and either
    return or raise. *)
Definition M (A : Type) : Type := World -> World * (Exception + A).

Definition ret {A} (a : A) : M A := fun w => (w, inr a).
Definition raise {A} (e : Exception) : M A := fun w => (w, inl e).
Definition bind {A B} (m : M A) (k : A -> M B) : M B :=
  fun w =>
    match m w with
    | (w', inr a) => k a w'
    | (w', inl e) => (w', inl e)
    end.
Definition lift {A} (r : Exception + A) : M A :=
  match r with
  | inl e => raise e
  | inr a => ret a
  end.

#[global] Instance M_ret : MRet M := @ret.
#[global] Instance M_bind : MBind M := fun A B k m => bind m k.

(** [open(path, 'w')]: fails on an unwritable path, otherwise the file
    exists and is empty. *)
Definition open_w (path : string) : M unit :=
  fun w =>
    if decide (path ∈ unwritable w)
    then (w, inl (OSError ("[Errno 13] Permission denied: '" +:+ path +:+ "'")))
    else ({| files := <[path := ""]> (files w);
             unwritable := unwritable w;
             console := console w |}, inr tt).

(** [f.write(s)] on the file opened at [path]; the text reaches the file
    when the [with] block is left, on every exit path. *)
Definition f_write (path : string) (s : string) : M unit :=
  fun w =>
    ({| files := <[path := default "" (files w !! path) +:+ s]> (files w);
        unwritable := unwritable w;
        console := console w |}, inr tt).

Definition print (s : string) (w : World) : World :=
  {| files := files w;
     unwritable := unwritable w;
     console := console w ++ [s] |}.

Definition print_m (s : string) : M unit := fun w => (print s w, inr tt).

(** ** Text of a float without a format specification *)

Definition is_integral (m : positive) (e : Z) : bool :=
  (0 <=? e) || (Z.pos m mod 2 ^ (- e) =? 0).

Definition integral_value (m : positive) (e : Z) : Z :=
  if 0 <=? e then Z.pos m * 2 ^ e else Z.pos m / 2 ^ (- e).

Section Program.

(** The shortest round-trip digits [repr] prints for a float that is
    not an integer below 10^16. *)
Variable repr_shortest : spec_float -> string.

(** [pd.read_csv(path)] against the files of the world. *)
Variable read_csv : string -> gmap string string -> Exception + DataFrame.

(** The indexer [sort_values(ascending=False)] computes for a key
    column with the default [kind='quicksort']. *)
Variable argsort_desc : Column -> list nat.

(** [str(x)] for a float. *)
Definition float_str (x : spec_float) : string :=
  match x with
  | S754_nan => "nan"
  | S754_infinity s => sign_text s +:+ "inf"
  | S754_zero s => sign_text s +:+ "0.0"
  | S754_finite s m e =>
      if is_integral m e && (integral_value m e <? 10 ^ 16)
      then sign_text s +:+ Dec.of_Z_nonneg (integral_value m e) +:+ ".0"
      else repr_shortest x
  end.

(** [format(v, '')], what [f"{v}"] prints. *)
Definition py_str (v : Scalar) : string :=
  match v with
  | SInt z => Dec.of_Z z
  | SFloat f => float_str f
  | SStr s => s
  end.

(** [df.sort_values(by=..., ascending=False)] *)
Definition sort_values (by_ : string) (df : DataFrame)
  : Exception + DataFrame :=
  match lookup_col by_ (columns df) with
  | None => inl (KeyError by_)
  | Some key => inr (take_rows (argsort_desc key) df)
  end.

(** The f-string of one data row; the fields are evaluated from left
    to right. *)
Definition row_line (row : Row) : Exception + string :=
  match row_get "COIN" row with inl e => inl e | inr coin =>
  match row_get "PROFIT_USDT" row with inl e => inl e | inr profit =>
  match format_f 2 profit with inl e => inl e | inr profit_s =>
  match row_get "MAX_DRAWDOWN_PCT" row with inl e => inl e | inr dd =>
  match format_f 2 dd with inl e => inl e | inr dd_s =>
  match row_get "TRADES" row with inl e => inl e | inr trades =>
  match row_get "STUCK_DAYS" row with inl e => inl e | inr stuck =>
  match format_f 1 stuck with inl e => inl e | inr stuck_s =>
  match row_get "END_POSITIONS" row with inl e => inl e | inr bags =>
    inr ("| " +:+ py_str coin +:+ " | $" +:+ profit_s +:+ " | " +:+ dd_s
         +:+ "% | " +:+ py_str trades +:+ " | " +:+ stuck_s +:+ " | "
         +:+ py_str bags +:+ " |" +:+ "
")
  end end end end end end end end end.

Fixpoint write_rows (md_file : string) (rows : list Row) : M unit :=
  match rows with
  | [] => ret tt
  | row :: rows' =>
      line ← lift (row_line row);
      f_write md_file line;;
      write_rows md_file rows'
  end.

Definition title_line : string :=
  "# Full Simulation Results (90 Days)
".
Definition strategy_lines : string :=
  "**Strategy**: Buy Dip (Standard Dynamic Spacing)

".
Definition table_header : string :=
  "| COIN | PROFIT ($) | MAX DD (%) | TRADES | STUCK (Days) | BAGS |
".
Definition table_align : string :=
  "| :--- | :--- | :--- | :--- | :--- | :--- |
".

Definition success_message (n : nat) (md_file : string) : string :=
  "Successfully wrote " +:+ Dec.of_Z (Z.of_nat n) +:+ " rows to " +:+ md_file.

(** The body of the [try]. *)
Definition try_block (csv_file md_file : string) : M unit :=
  df ← (fun w => (w, read_csv csv_file (files w))) : M DataFrame;
  df ← lift (sort_values "PROFIT_USDT" df);
  open_w md_file;;
  f_write md_file title_line;;
  f_write md_file strategy_lines;;
  f_write md_file table_header;;
  f_write md_file table_align;;
  write_rows md_file (iterrows df);;
  print_m (success_message (nrows df) md_file).

(** [csv_to_md(csv_file, md_file)]: the [try] with its
    [except Exception as e: print(f"Error: {e}")]. *)
Definition csv_to_md (csv_file md_file : string) (w : World) : World :=
  match try_block csv_file md_file w with
  | (w', inr _) => w'
  | (w', inl e) => print ("Error: " +:+ exception_str e) w'
  end.

End Program.

(** ** What the sort promises

    [sort_values] is called without [kind], so pandas sorts with its
    default, quicksort.  What the library documents for it: the rows are
    rearranged, none lost or repeated, and the keys come out in the
    requested order.  Numeric keys are compared by value. *)

Definition col_values (c : Column) : option (list Q) :=
  match c with
  | ColInt l => Some (map inject_Z l)
  | ColFloat l => mapM float_Q l
  | ColObject _ => None
  end.

Definition descending (qs : list Q) : Prop :=
  StronglySorted (fun a b => (b <= a)%Q) qs.

Definition sort_contract (argsort : Column -> list nat) : Prop :=
  (forall c, argsort c ≡ₚ seq 0 (col_len c))
  /\ (forall c qs, col_values c = Some qs ->
                   descending (take_list (argsort c) qs)).


(** ** Two sorts that keep the promise

    Both order the keys descending, missing values last.  The first
    breaks ties by input position, the second by reverse input
    position. *)

Abbreviation SortKey := (Z * Q)%type.

Definition float_key (x : spec_float) : SortKey :=
  match x with
  | S754_nan => (0, 0%Q)
  | S754_infinity true => (1, 0%Q)
  | S754_infinity false => (3, 0%Q)
  | S754_zero _ => (2, 0%Q)
  | S754_finite s m e => (2, finite_Q s m e)
  end.

Definition col_keys (c : Column) : list SortKey :=
  match c with
  | ColInt l => map (fun z => (2, inject_Z z)) l
  | ColFloat l => map float_key l
  | ColObject l => map (fun _ => (0, 0%Q)) l
  end.

(** [k1] sorts strictly before [k2]. *)
Definition key_before (k1 k2 : SortKey) : bool :=
  (k2.1 <? k1.1) || ((k1.1 =? k2.1) && negb (Qle_bool k1.2 k2.2)).

Definition key_same (k1 k2 : SortKey) : bool :=
  (k1.1 =? k2.1) && Qeq_bool k1.2 k2.2.

(** Keys first; among equal keys, [tie] on the input positions. *)
Definition lex_leb (tie : nat -> nat -> bool) (x y : SortKey * nat) : bool :=
  key_before x.1 y.1 || (key_same x.1 y.1 && tie x.2 y.2).

Lemma key_before_spec k1 k2 :
  key_before k1 k2 = true
  <-> k2.1 < k1.1 \/ (k1.1 = k2.1 /\ (k2.2 < k1.2)%Q).
Proof.
  unfold key_before. rewrite orb_true_iff, andb_true_iff, negb_true_iff.
  rewrite Z.ltb_lt, Z.eqb_eq.
  assert (E : Qle_bool k1.2 k2.2 = false <-> (k2.2 < k1.2)%Q).
  { split.
    - intros H. apply Qnot_le_lt. intros Hle.
      apply Qle_bool_iff in Hle. congruence.
    - intros H. destruct (Qle_bool k1.2 k2.2) eqn:E; [|done].
      apply Qle_bool_iff in E. by apply Qlt_not_le in H. }
  by rewrite E.
Qed.

Lemma key_same_spec k1 k2 :
  key_same k1 k2 = true <-> k1.1 = k2.1 /\ (k1.2 == k2.2)%Q.
Proof.
  unfold key_same. by rewrite andb_true_iff, Z.eqb_eq, Qeq_bool_iff.
Qed.

Lemma lex_leb_spec tie x y :
  lex_leb tie x y = true
  <-> key_before x.1 y.1 = true
      \/ (key_same x.1 y.1 = true /\ tie x.2 y.2 = true).
Proof. unfold lex_leb. by rewrite orb_true_iff, andb_true_iff. Qed.

Lemma lex_leb_total tie x y :
  (forall i j, tie i j = true \/ tie j i = true) ->
  lex_leb tie x y = true \/ lex_leb tie y x = true.
Proof.
  intros Htie. rewrite !lex_leb_spec, !key_before_spec, !key_same_spec.
  destruct (Z.lt_total x.1.1 y.1.1) as [H|[H|H]]; [by auto| |by auto].
  destruct (Q_dec x.1.2 y.1.2) as [[Hq|Hq]|Hq]; [by auto|by auto|].
  destruct (Htie x.2 y.2); [by auto|].
  right; right; repeat split; try done; by symmetry.
Qed.

Lemma lex_leb_trans tie x y z :
  (forall i j k, tie i j = true -> tie j k = true -> tie i k = true) ->
  lex_leb tie x y = true -> lex_leb tie y z = true -> lex_leb tie x z = true.
Proof.
  intros Htie. rewrite !lex_leb_spec, !key_before_spec, !key_same_spec.
  intros [[H1|[H1 Q1]]|[[H1 Q1] T1]] [[H2|[H2 Q2]]|[[H2 Q2] T2]];
    try (left; left; lia).
  - left; right. split; [lia|]. by eapply Qlt_trans.
  - left; right. split; [lia|]. by rewrite <- Q2.
  - left; right. split; [lia|]. by rewrite Q1.
  - right. repeat split; [lia| |by eapply Htie]. by rewrite Q1.
Qed.

Lemma nat_leb_total (i j : nat) : Nat.leb i j = true \/ Nat.leb j i = true.
Proof. destruct (Nat.leb_spec i j), (Nat.leb_spec j i); auto; lia. Qed.

Lemma nat_geb_total (i j : nat) : Nat.leb j i = true \/ Nat.leb i j = true.
Proof. destruct (Nat.leb_spec i j), (Nat.leb_spec j i); auto; lia. Qed.

Module TiesInOrder <: Orders.TotalLeBool.
Definition t : Type := (SortKey * nat)%type.
Definition leb : t -> t -> bool := lex_leb Nat.leb.
Definition leb_total : forall x y : t, leb x y = true \/ leb y x = true :=
  fun x y => lex_leb_total Nat.leb x y nat_leb_total.
End TiesInOrder.

Module TiesReversed <: Orders.TotalLeBool.
Definition t : Type := (SortKey * nat)%type.
Definition leb : t -> t -> bool := lex_leb (fun i j => Nat.leb j i).
Definition leb_total : forall x y : t, leb x y = true \/ leb y x = true :=
  fun x y => lex_leb_total (fun i j => Nat.leb j i) x y nat_geb_total.
End TiesReversed.

Module SortInOrder := Mergesort.Sort TiesInOrder.
Module SortReversed := Mergesort.Sort TiesReversed.

Definition keyed (c : Column) : list (SortKey * nat) :=
  zip (col_keys c) (seq 0 (col_len c)).

Definition stable_argsort_desc (c : Column) : list nat :=
  (SortInOrder.sort (keyed c)).*2.


(** ** Valid input

    A frame as [read_csv] builds it from a file of the expected shape:
    every column as long as the index; COIN a column of text; the three
    formatted columns numeric and finite; TRADES numeric; END_POSITIONS
    present. *)

Definition wf_frame_b (df : DataFrame) : bool :=
  forallb (fun nc => Nat.eqb (col_len nc.2) (nrows df)) (columns df).

Definition is_text (v : Scalar) : bool :=
  match v with SStr _ => true | _ => false end.

Definition text_column (c : Column) : bool :=
  match c with ColObject l => forallb is_text l | _ => false end.

Definition numeric_column (c : Column) : bool :=
  match col_values c with Some _ => true | None => false end.

Definition has_col (p : Column -> bool) (name : string) (df : DataFrame)
  : bool :=
  match lookup_col name (columns df) with
  | Some c => p c
  | None => false
  end.

Definition valid_frame (df : DataFrame) : bool :=
  wf_frame_b df
  && has_col text_column "COIN" df
  && has_col numeric_column "PROFIT_USDT" df
  && has_col numeric_column "MAX_DRAWDOWN_PCT" df
  && has_col (fun c => match c with ColObject _ => false | _ => true end)
       "TRADES" df
  && has_col numeric_column "STUCK_DAYS" df
  && has_col (fun _ => true) "END_POSITIONS" df.

(** ** Specification-level views of the effects *)

Definition join (ls : list string) : string := foldr String.append "" ls.

Definition set_file (path contents : string) (w : World) : World :=
  {| files := <[path := contents]> (files w);
     unwritable := unwritable w;
     console := console w |}.

Definition header_block : string :=
  title_line +:+ strategy_lines +:+ table_header +:+ table_align.

Section Rendering.

Variable repr_shortest : spec_float -> string.

(** The lines of the rows up to the first row whose f-string raises,
    and that exception. *)
Fixpoint render_rows (rows : list Row) : list string * option Exception :=
  match rows with
  | [] => ([], None)
  | row :: rows' =>
      match row_line repr_shortest row with
      | inl e => ([], Some e)
      | inr line =>
          let '(ls, oe) := render_rows rows' in (line :: ls, oe)
      end
  end.

End Rendering.

(** The number a cell holds, and the float [format] works on. *)
Definition scalar_Q (v : Scalar) : option Q :=
  match v with
  | SInt z => Some (inject_Z z)
  | SFloat f => float_Q f
  | SStr _ => None
  end.

Definition to_float (v : Scalar) : spec_float :=
  match v with
  | SInt z => int_to_float z
  | SFloat f => f
  | SStr _ => S754_nan
  end.

(** The six fields the f-string reads from a well-formed record. *)
Record RowFields (row : Row) (coin : string)
    (profit dd trades stuck bags : Scalar) : Prop := {
  rf_coin : row_get "COIN" row = inr (SStr coin);
  rf_profit : row_get "PROFIT_USDT" row = inr profit;
  rf_profit_num : is_Some (scalar_Q profit);
  rf_dd : row_get "MAX_DRAWDOWN_PCT" row = inr dd;
  rf_dd_num : is_Some (scalar_Q dd);
  rf_trades : row_get "TRADES" row = inr trades;
  rf_stuck : row_get "STUCK_DAYS" row = inr stuck;
  rf_stuck_num : is_Some (scalar_Q stuck);
  rf_bags : row_get "END_POSITIONS" row = inr bags
}.

(** The text of a data row, cell by cell. *)
Definition line_text (repr_shortest : spec_float -> string) (coin : string)
    (profit dd trades stuck bags : Scalar) : string :=
  "| " +:+ coin
  +:+ " | $" +:+ format_float_f 2 (to_float profit)
  +:+ " | " +:+ format_float_f 2 (to_float dd) +:+ "%"
  +:+ " | " +:+ py_str repr_shortest trades
  +:+ " | " +:+ format_float_f 1 (to_float stuck)
  +:+ " | " +:+ py_str repr_shortest bags
  +:+ " |" +:+ "
".

(** Line [l] is the data row of record [i] of the frame. *)
Definition renders (repr_shortest : spec_float -> string) (df : DataFrame)
    (i : nat) (l : string) : Prop :=
  exists coin profit dd trades stuck bags,
    RowFields (row_at df i) coin profit dd trades stuck bags
    /\ l = line_text repr_shortest coin profit dd trades stuck bags.


(** The five lines every report starts with. *)
Definition heading_lines : list string :=
  ["# Full Simulation Results (90 Days)
";
   "**Strategy**: Buy Dip (Standard Dynamic Spacing)
";
   "
";
   "| COIN | PROFIT ($) | MAX DD (%) | TRADES | STUCK (Days) | BAGS |
";
   "| :--- | :--- | :--- | :--- | :--- | :--- |
"].




(** ** Fixed-point text *)

Definition is_digit (c : ascii) : bool :=
  match Dec.digit_val c with Some _ => true | None => false end.

Fixpoint all_digits (s : string) : bool :=
  match s with
  | EmptyString => true
  | String c s' => is_digit c && all_digits s'
  end.

(** The text before and after the first dot. *)
Fixpoint split_dot (s : string) : option (string * string) :=
  match s with
  | EmptyString => None
  | String c s' =>
      if Ascii.eqb c "." then Some ("", s')
      else match split_dot s' with
           | Some (a, b) => Some (String c a, b)
           | None => None
           end
  end.

Definition strip_minus (s : string) : bool * string :=
  match s with
  | String "-" s' => (true, s')
  | _ => (false, s)
  end.

(** An optional minus sign, one or more digits, a dot, exactly [k]
    digits. *)
Definition is_fixed_point (k : nat) (s : string) : bool :=
  match split_dot (strip_minus s).2 with
  | Some (int_part, frac_part) =>
      negb (String.eqb int_part "") && all_digits int_part
      && all_digits frac_part && Nat.eqb (String.length frac_part) k
  | None => false
  end.

Definition is_finite (x : spec_float) : bool :=
  match x with
  | S754_zero _ | S754_finite _ _ _ => true
  | _ => false
  end.

Fixpoint descending_b (qs : list Q) : bool :=
  match qs with
  | [] => true
  | q :: qs' => forallb (fun b => Qle_bool b q) qs' && descending_b qs'
  end.

(** ** Reading the report back *)

(** The number a fixed-point text with [k] decimals denotes, in units of
    [10^-k]: what is left of a finite float after [format(x, '.kf')]. *)
Definition shown (k : nat) (x : spec_float) : Z :=
  match x with
  | S754_finite s m e =>
      if s then - scaled_round k m e else scaled_round k m e
  | _ => 0
  end.

(** A finite float as a fraction: signed numerator, positive
    denominator. *)
Definition fnum (x : spec_float) : Z :=
  match x with
  | S754_finite s m e =>
      let n := if 0 <=? e then Z.pos m * 2 ^ e else Z.pos m in
      if s then - n else n
  | _ => 0
  end.

Definition fden (x : spec_float) : Z :=
  match x with
  | S754_finite s m e => if 0 <=? e then 1 else 2 ^ (- e)
  | _ => 1
  end.

Definition newline : ascii := "010"%char.

Fixpoint no_char (c : ascii) (s : string) : bool :=
  match s with
  | EmptyString => true
  | String x s' => negb (Ascii.eqb x c) && no_char c s'
  end.

(** [s.split(sep)] *)
Fixpoint split_on (sep : ascii) (s : string) : list string :=
  match s with
  | EmptyString => [""]
  | String c s' =>
      if Ascii.eqb c sep then "" :: split_on sep s'
      else match split_on sep s' with
           | [] => [String c ""]
           | x :: xs => String c x :: xs
           end
  end.

Fixpoint lstrip (s : string) : string :=
  match s with
  | String " " s' => lstrip s'
  | _ => s
  end.

Fixpoint rstrip (s : string) : string :=
  match s with
  | EmptyString => ""
  | String c s' =>
      match rstrip s' with
      | EmptyString => if Ascii.eqb c " " then "" else String c ""
      | r => String c r
      end
  end.

Definition trim (s : string) : string := rstrip (lstrip s).

Definition strip_dollar (s : string) : option string :=
  match s with
  | String "$" s' => Some s'
  | _ => None
  end.

(** A signed decimal with a dot, as a fraction. *)
Definition parse_decimal (s : string) : option Q :=
  match split_dot (strip_minus s).2 with
  | Some (int_part, frac_part) =>
      match Dec.parse_nonneg int_part, Dec.parse_nonneg frac_part with
      | Some a, Some b =>
          let den := 10 ^ Z.of_nat (String.length frac_part) in
          let n := a * den + b in
          Some (Qmake (if (strip_minus s).1 then - n else n) (Z.to_pos den))
      | _, _ => None
      end
  | None => None
  end.

(** The second cell of a table row, without its dollar sign, as a
    number. *)
Definition profit_cell (line : string) : option Q :=
  match split_on "|" line !! 2%nat with
  | Some cell =>
      match strip_dollar (trim cell) with
      | Some body => parse_decimal body
      | None => None
      end
  | None => None
  end.

(** The table rows of a report: the lines after the five heading
    lines. *)
Definition data_lines (doc : string) : list string :=
  List.filter (fun l => negb (String.eqb l "")) (drop 5 (split_on newline doc)).

Definition profit_column (doc : string) : option (list Q) :=
  mapM profit_cell (data_lines doc).

Definition report_profits (w : World) (md_file : string)
  : option (list Q) :=
  match files w !! md_file with
  | Some doc => profit_column doc
  | None => None
  end.

(** A data row without its line break. *)
Definition line_body (repr_shortest : spec_float -> string) (coin : string)
    (profit dd trades stuck bags : Scalar) : string :=
  "| " +:+ coin
  +:+ " | $" +:+ format_float_f 2 (to_float profit)
  +:+ " | " +:+ format_float_f 2 (to_float dd) +:+ "%"
  +:+ " | " +:+ py_str repr_shortest trades
  +:+ " | " +:+ format_float_f 1 (to_float stuck)
  +:+ " | " +:+ py_str repr_shortest bags
  +:+ " |".

Definition col_scalars (c : Column) : list Scalar :=
  match c with
  | ColInt l => SInt <$> l
  | ColFloat l => SFloat <$> l
  | ColObject l => l
  end.

(** No coin holds a bar or a line break, and no TRADES or END_POSITIONS
    cell prints with a line break. *)
Definition plain_cells (repr_shortest : spec_float -> string)
    (df : DataFrame) : bool :=
  has_col (fun c => forallb (fun v =>
                      no_char "|" (py_str repr_shortest v)
                      && no_char newline (py_str repr_shortest v))
                      (col_scalars c)) "COIN" df
  && has_col (fun c => forallb (fun v =>
                         no_char newline (py_str repr_shortest v))
                         (col_scalars c)) "TRADES" df
  && has_col (fun c => forallb (fun v =>
                         no_char newline (py_str repr_shortest v))
                         (col_scalars c)) "END_POSITIONS" df.





(** The lines of a text, as [str.split] on the line feed gives them. *)
Definition text_lines (doc : string) : list string := split_on newline doc.

(** ** Cell by cell

    What the specification says of the six cells of a row, in terms of
    the texts themselves. *)

(** [sign digits] *)
Definition signed_int (s : string) : option Z :=
  match s with
  | String "-" s' => Z.opp <$> Dec.parse_nonneg s'
  | String "+" s' => Dec.parse_nonneg s'
  | _ => Dec.parse_nonneg s
  end.

(** The digits of a float literal before its exponent, with or without
    a fraction. *)
Definition mantissa_value (s : string) : option Q :=
  match split_dot (strip_minus s).2 with
  | Some _ => parse_decimal s
  | None => inject_Z <$> signed_int s
  end.

(** The number a float literal denotes: digits, an optional fraction,
    an optional exponent of ten after [e]. *)
Definition literal_value (s : string) : option Q :=
  match split_on "e" s with
  | [m] => mantissa_value m
  | [m; x] =>
      match mantissa_value m, signed_int x with
      | Some q, Some k =>
          Some (if 0 <=? k then q * inject_Z (10 ^ k)
                else q / inject_Z (10 ^ (- k)))%Q
      | _, _ => None
      end
  | _ => None
  end.

(** The binary64 nearest to a rational, ties to even, as [float()] reads
    a literal: 53 significant bits, the last bit worth 2^-1074 at least,
    an infinity from 2^1024 on. *)
Definition nearest_float (q : Q) : spec_float :=
  let n := Qnum q in
  let d := Z.pos (Qden q) in
  if n =? 0 then S754_zero false
  else
    let a := Z.abs n in
    let l := Z.log2 a - Z.log2 d in
    let fl := if (if 0 <=? l then d * 2 ^ l <=? a else d <=? a * 2 ^ (- l))
              then l else l - 1 in
    let e := Z.max (fl - 52) (-1074) in
    let m := if 0 <=? e then round_half_even a (d * 2 ^ e)
             else round_half_even (a * 2 ^ (- e)) d in
    if m =? 0 then S754_zero (n <? 0)
    else if (0 <=? e) && (2 ^ 1024 <=? m * 2 ^ e) then S754_infinity (n <? 0)
    else S754_finite (n <? 0) (Z.to_pos m) e.

(** Text [s] read as a float literal gives the float [x] back. *)
Definition reads_back (s : string) (x : spec_float) : bool :=
  match literal_value s with
  | Some q => same_value (nearest_float q) x
  | None => false
  end.

(** What Python documents of [repr] on floats, asked of the floats of a
    cell: the text reads back as the float it was printed from. *)
Definition float_reads_back (repr_shortest : spec_float -> string)
    (v : Scalar) : bool :=
  match v with
  | SFloat (S754_finite s m e) =>
      reads_back (repr_shortest (S754_finite s m e)) (S754_finite s m e)
  | _ => true
  end.

Definition repr_round_trips (repr_shortest : spec_float -> string)
    (df : DataFrame) : bool :=
  has_col (fun c => forallb (float_reads_back repr_shortest) (col_scalars c))
    "TRADES" df
  && has_col (fun c => forallb (float_reads_back repr_shortest)
                         (col_scalars c)) "END_POSITIONS" df.

(** Text [t] shows the number of cell [v] with exactly [k] decimals: an
    optional minus sign, digits, a dot and [k] digits, which denote a
    number within half a unit of the last decimal of the float the cell
    is formatted as. *)
Definition shows_fixed (k : nat) (v : Scalar) (t : string) : Prop :=
  is_fixed_point k t = true
  /\ exists p q,
       parse_decimal t = Some p
       /\ float_Q (to_float v) = Some q
       /\ (Qabs (p - q) <= 1 # (2 * Z.to_pos (10 ^ Z.of_nat k)))%Q.

(** Text [t] shows cell [v] as it is: an integer by its digits, text
    unchanged, a missing value as nan, a float that is a whole number
    below 10^16 by its digits and ".0", any other float by the digits of
    [repr], which read back as the float. *)
Inductive shown_as_is (repr_shortest : spec_float -> string)
  : Scalar -> string -> Prop :=
| as_is_int z : shown_as_is repr_shortest (SInt z) (Dec.of_Z z)
| as_is_text s : shown_as_is repr_shortest (SStr s) s
| as_is_nan : shown_as_is repr_shortest (SFloat S754_nan) "nan"
| as_is_inf s :
    shown_as_is repr_shortest (SFloat (S754_infinity s)) (sign_text s +:+ "inf")
| as_is_zero s :
    shown_as_is repr_shortest (SFloat (S754_zero s)) (sign_text s +:+ "0.0")
| as_is_whole s m e n :
    (finite_Q false m e == inject_Z n)%Q -> n < 10 ^ 16 ->
    shown_as_is repr_shortest (SFloat (S754_finite s m e))
      (sign_text s +:+ Dec.of_Z_nonneg n +:+ ".0")
| as_is_digits s m e :
    (forall n, (finite_Q false m e == inject_Z n)%Q -> 10 ^ 16 <= n) ->
    reads_back (repr_shortest (S754_finite s m e)) (S754_finite s m e) = true ->
    shown_as_is repr_shortest (SFloat (S754_finite s m e))
      (repr_shortest (S754_finite s m e)).

(** Line [l] shows record [i] of the frame cell by cell: COIN as it is,
    the profit after a dollar sign with two decimals, the drawdown with
    two decimals before a percent sign, TRADES as it is, the stuck days
    with one decimal, END_POSITIONS as it is. *)
Definition cells_formatted (repr_shortest : spec_float -> string)
    (df : DataFrame) (i : nat) (l : string) : Prop :=
  exists coin profit dd trades stuck bags P D T S B,
    RowFields (row_at df i) coin profit dd trades stuck bags
    /\ l = "| " +:+ coin +:+ " | $" +:+ P +:+ " | " +:+ D +:+ "% | "
           +:+ T +:+ " | " +:+ S +:+ " | " +:+ B +:+ " |
"
    /\ shows_fixed 2 profit P
    /\ shows_fixed 2 dd D
    /\ shown_as_is repr_shortest trades T
    /\ shows_fixed 1 stuck S
    /\ shown_as_is repr_shortest bags B.

Definition same_kind (v1 v2 : Scalar) : bool :=
  match v1, v2 with
  | SInt _, SInt _ => true
  | SFloat _, SFloat _ => true
  | _, _ => false
  end.

(** The number the profit cell of a record reads as. *)
Definition shown_profit (v : Scalar) : Q := Qmake (shown 2 (to_float v)) 100.

(** The magnitude [int_to_float] gives a positive integer. *)
Definition int_magnitude (a : Z) : Z :=
  let k := Z.log2 a - 52 in
  if k <=? 0 then a else round_half_even a (2 ^ k) * 2 ^ k.

(** What a run leaves behind, case by case. *)
Definition run_outcome (repr_shortest : spec_float -> string)
    (read_csv : string -> gmap string string -> Exception + DataFrame)
    (argsort_desc : Column -> list nat)
    (csv_file md_file : string) (w : World) : World :=
  match read_csv csv_file (files w) with
  | inl e => print ("Error: " +:+ exception_str e) w
  | inr df =>
      match lookup_col "PROFIT_USDT" (columns df) with
      | None => print ("Error: " +:+ exception_str (KeyError "PROFIT_USDT")) w
      | Some key =>
          if decide (md_file ∈ unwritable w)
          then print ("Error: [Errno 13] Permission denied: '"
                      +:+ md_file +:+ "'") w
          else
            let sorted := take_rows (argsort_desc key) df in
            let '(ls, oe) := render_rows repr_shortest (iterrows sorted) in
            let w' := set_file md_file (header_block +:+ join ls) w in
            match oe with
            | None => print (success_message (nrows sorted) md_file) w'
            | Some e => print ("Error: " +:+ exception_str e) w'
            end
      end
  end.

(** ** Sample inputs *)

(** [read_csv] given by a table from file contents to the frame pandas
    parses them into.  A missing file raises FileNotFoundError; a text
    outside the table is read as the empty file is, for which pandas
    raises EmptyDataError. *)
Fixpoint assoc_text (text : string) (table : list (string * DataFrame))
  : option DataFrame :=
  match table with
  | [] => None
  | (t, df) :: table' =>
      if String.eqb t text then Some df else assoc_text text table'
  end.

Definition table_read_csv (table : list (string * DataFrame))
    (path : string) (fs : gmap string string) : Exception + DataFrame :=
  match fs !! path with
  | None =>
      inl (ReadError ("[Errno 2] No such file or directory: '" +:+ path +:+ "'"))
  | Some text =>
      match assoc_text text table with
      | Some df => inr df
      | None => inl (ReadError "No columns to parse from file")
      end
  end.

(** Stands for [repr] on the sample floats, which all have at most one
    decimal. *)
Definition sample_repr (x : spec_float) : string := format_float_f 1 x.

Definition csv_path : string := "analysis_results_all.csv".
Definition md_path : string := "full_simulation_results.md".

Definition world_with (csv_text : string) : World :=
  {| files := {[ csv_path := csv_text ]};
     unwritable := ∅;
     console := [] |}.

Definition f_10_5 : spec_float := S754_finite false 21 (-1).
Definition f_100 : spec_float := S754_finite false 100 0.
Definition f_12_25 : spec_float := S754_finite false 49 (-2).
Definition f_7_5 : spec_float := S754_finite false 15 (-1).

(** Scenario A: three rows with profits 10.5, -2.333 and 100. *)
Definition scenario_a_text : string :=
  "COIN,PROFIT_USDT,MAX_DRAWDOWN_PCT,TRADES,STUCK_DAYS,END_POSITIONS
AAA,10.5,12.25,14,3,0
BBB,-2.333,7.5,9,0,2
CCC,100,0.0,31,12,1
".

Definition scenario_a_frame : DataFrame :=
  {| nrows := 3;
     columns :=
       [("COIN", ColObject [SStr "AAA"; SStr "BBB"; SStr "CCC"]);
        ("PROFIT_USDT", ColFloat [f_10_5; f_m2_333; f_100]);
        ("MAX_DRAWDOWN_PCT", ColFloat [f_12_25; f_7_5; S754_zero false]);
        ("TRADES", ColInt [14; 9; 31]);
        ("STUCK_DAYS", ColInt [3; 0; 12]);
        ("END_POSITIONS", ColInt [0; 2; 1])] |}.

(** Scenario B: no PROFIT_USDT column. *)
Definition scenario_b_text : string :=
  "COIN,MAX_DRAWDOWN_PCT,TRADES,STUCK_DAYS,END_POSITIONS
AAA,12.25,14,3,0
".

Definition scenario_b_frame : DataFrame :=
  {| nrows := 1;
     columns :=
       [("COIN", ColObject [SStr "AAA"]);
        ("MAX_DRAWDOWN_PCT", ColFloat [f_12_25]);
        ("TRADES", ColInt [14]);
        ("STUCK_DAYS", ColInt [3]);
        ("END_POSITIONS", ColInt [0])] |}.

(** Scenario C: the header line only; pandas types the empty columns
    object. *)
Definition scenario_c_text : string :=
  "COIN,PROFIT_USDT,MAX_DRAWDOWN_PCT,TRADES,STUCK_DAYS,END_POSITIONS
".

Definition scenario_c_frame : DataFrame :=
  {| nrows := 0;
     columns :=
       [("COIN", ColObject []); ("PROFIT_USDT", ColObject []);
        ("MAX_DRAWDOWN_PCT", ColObject []); ("TRADES", ColObject []);
        ("STUCK_DAYS", ColObject []); ("END_POSITIONS", ColObject [])] |}.

(** A frame whose second drawdown cell is text: its f-string raises
    after one row has been written. *)
Definition bad_cell_text : string :=
  "COIN,PROFIT_USDT,MAX_DRAWDOWN_PCT,TRADES,STUCK_DAYS,END_POSITIONS
AAA,2,,14,3,0
BBB,1,err,9,0,2
".

Definition bad_cell_frame : DataFrame :=
  {| nrows := 2;
     columns :=
       [("COIN", ColObject [SStr "AAA"; SStr "BBB"]);
        ("PROFIT_USDT", ColInt [2; 1]);
        ("MAX_DRAWDOWN_PCT", ColObject [SFloat S754_nan; SStr "err"]);
        ("TRADES", ColInt [14; 9]);
        ("STUCK_DAYS", ColInt [3; 0]);
        ("END_POSITIONS", ColInt [0; 2])] |}.

(** Two records with the same profit. *)
Definition tie_text : string :=
  "COIN,PROFIT_USDT,MAX_DRAWDOWN_PCT,TRADES,STUCK_DAYS,END_POSITIONS
AAA,5,1.0,1,1,0
BBB,5,1.0,1,1,0
".

Definition f_1 : spec_float := S754_finite false 1 0.

Definition tie_frame : DataFrame :=
  {| nrows := 2;
     columns :=
       [("COIN", ColObject [SStr "AAA"; SStr "BBB"]);
        ("PROFIT_USDT", ColInt [5; 5]);
        ("MAX_DRAWDOWN_PCT", ColFloat [f_1; f_1]);
        ("TRADES", ColInt [1; 1]);
        ("STUCK_DAYS", ColInt [1; 1]);
        ("END_POSITIONS", ColInt [0; 0])] |}.

(** All six required columns numeric, coins named by number; and the
    same rows with one more column, of floats. *)
Definition numeric_text : string :=
  "COIN,PROFIT_USDT,MAX_DRAWDOWN_PCT,TRADES,STUCK_DAYS,END_POSITIONS
1,5,2,14,3,0
".

Definition numeric_frame : DataFrame :=
  {| nrows := 1;
     columns :=
       [("COIN", ColInt [1]); ("PROFIT_USDT", ColInt [5]);
        ("MAX_DRAWDOWN_PCT", ColInt [2]); ("TRADES", ColInt [14]);
        ("STUCK_DAYS", ColInt [3]); ("END_POSITIONS", ColInt [0])] |}.

Definition numeric_fee_text : string :=
  "COIN,PROFIT_USDT,MAX_DRAWDOWN_PCT,TRADES,STUCK_DAYS,END_POSITIONS,FEE
1,5,2,14,3,0,7.5
".

Definition numeric_fee_frame : DataFrame :=
  {| nrows := 1;
     columns := columns numeric_frame ++ [("FEE", ColFloat [f_7_5])] |}.

(** Scenario A with one more column. *)
Definition scenario_a_fee_text : string :=
  "COIN,PROFIT_USDT,MAX_DRAWDOWN_PCT,TRADES,STUCK_DAYS,END_POSITIONS,FEE
AAA,10.5,12.25,14,3,0,7.5
BBB,-2.333,7.5,9,0,2,7.5
CCC,100,0.0,31,12,1,7.5
".

Definition scenario_a_fee_frame : DataFrame :=
  {| nrows := 3;
     columns := columns scenario_a_frame
                ++ [("FEE", ColFloat [f_7_5; f_7_5; f_7_5])] |}.

(** A coin whose name holds a bar and a price. *)
Definition bar_text : string :=
  "COIN,PROFIT_USDT,MAX_DRAWDOWN_PCT,TRADES,STUCK_DAYS,END_POSITIONS
X | $1.00,5,1.0,1,1,0
BBB,2,1.0,1,1,0
".

Definition bar_frame : DataFrame :=
  {| nrows := 2;
     columns :=
       [("COIN", ColObject [SStr "X | $1.00"; SStr "BBB"]);
        ("PROFIT_USDT", ColInt [5; 2]);
        ("MAX_DRAWDOWN_PCT", ColFloat [f_1; f_1]);
        ("TRADES", ColInt [1; 1]);
        ("STUCK_DAYS", ColInt [1; 1]);
        ("END_POSITIONS", ColInt [0; 0])] |}.

Definition sample_table : list (string * DataFrame) :=
  [(scenario_a_text, scenario_a_frame);
   (scenario_b_text, scenario_b_frame);
   (scenario_c_text, scenario_c_frame);
   (bad_cell_text, bad_cell_frame);
   (tie_text, tie_frame);
   (numeric_text, numeric_frame);
   (numeric_fee_text, numeric_fee_frame);
   (scenario_a_fee_text, scenario_a_fee_frame);
   (bar_text, bar_frame)].

Definition sample_run (csv_text : string) : World :=
  csv_to_md sample_repr (table_read_csv sample_table) stable_argsort_desc
    csv_path md_path (world_with csv_text).


(** ** The script entry point *)

(** [if __name__ == "__main__": csv_to_md('analysis_results_all.csv',
    'full_simulation_results.md')] *)
Definition main (repr_shortest : spec_float -> string)
    (read_csv : string -> gmap string string -> Exception + DataFrame)
    (argsort_desc : Column -> list nat) (w : World) : World :=
  csv_to_md repr_shortest read_csv argsort_desc
    "analysis_results_all.csv" "full_simulation_results.md" w.

(** [read_csv(path)] looks at the file at [path] and at nothing else. *)
Definition reads_own_file
    (read_csv : string -> gmap string string -> Exception + DataFrame)
  : Prop :=
  forall path (fs1 fs2 : gmap string string),
    fs1 !! path = fs2 !! path -> read_csv path fs1 = read_csv path fs2.

(** ** Frames every row of which can be formatted

    The six columns are there, as long as the index, and none of the
    three columns formatted with a precision holds text.  Missing values
    and infinities are allowed. *)

Definition no_text_column (c : Column) : bool :=
  forallb (fun v => negb (is_text v)) (col_scalars c).

Definition formattable_frame (df : DataFrame) : bool :=
  wf_frame_b df
  && has_col (fun _ => true) "COIN" df
  && has_col no_text_column "PROFIT_USDT" df
  && has_col no_text_column "MAX_DRAWDOWN_PCT" df
  && has_col (fun _ => true) "TRADES" df
  && has_col no_text_column "STUCK_DAYS" df
  && has_col (fun _ => true) "END_POSITIONS" df.

(** A file with an empty drawdown cell, and one without a COIN
    column. *)
Definition gap_text : string :=
  "COIN,PROFIT_USDT,MAX_DRAWDOWN_PCT,TRADES,STUCK_DAYS,END_POSITIONS
AAA,2,,14,3,0
BBB,1,7.5,9,0,2
".

Definition gap_frame : DataFrame :=
  {| nrows := 2;
     columns :=
       [("COIN", ColObject [SStr "AAA"; SStr "BBB"]);
        ("PROFIT_USDT", ColInt [2; 1]);
        ("MAX_DRAWDOWN_PCT", ColFloat [S754_nan; f_7_5]);
        ("TRADES", ColInt [14; 9]);
        ("STUCK_DAYS", ColInt [3; 0]);
        ("END_POSITIONS", ColInt [0; 2])] |}.

Definition no_coin_text : string :=
  "PROFIT_USDT,MAX_DRAWDOWN_PCT,TRADES,STUCK_DAYS,END_POSITIONS
2,7.5,14,3,0
".

Definition no_coin_frame : DataFrame :=
  {| nrows := 1;
     columns :=
       [("PROFIT_USDT", ColInt [2]);
        ("MAX_DRAWDOWN_PCT", ColFloat [f_7_5]);
        ("TRADES", ColInt [14]);
        ("STUCK_DAYS", ColInt [3]);
        ("END_POSITIONS", ColInt [0])] |}.

(** A coin whose name runs over two lines; the field is quoted in the
    file. *)
Definition dquote : ascii := "034"%char.

Definition break_text : string :=
  "COIN,PROFIT_USDT,MAX_DRAWDOWN_PCT,TRADES,STUCK_DAYS,END_POSITIONS
" +:+ String dquote ("A
B" +:+ String dquote ",5,1.0,1,1,0
").

Definition break_frame : DataFrame :=
  {| nrows := 1;
     columns :=
       [("COIN", ColObject [SStr "A
B"]);
        ("PROFIT_USDT", ColInt [5]);
        ("MAX_DRAWDOWN_PCT", ColFloat [f_1]);
        ("TRADES", ColInt [1]);
        ("STUCK_DAYS", ColInt [1]);
        ("END_POSITIONS", ColInt [0])] |}.

(** TRADES and END_POSITIONS with fractions, and one END_POSITIONS
    cell left empty. *)
Definition fraction_text : string :=
  "COIN,PROFIT_USDT,MAX_DRAWDOWN_PCT,TRADES,STUCK_DAYS,END_POSITIONS
AAA,10.5,12.25,14.5,3,0.5
BBB,-2.333,7.5,9.0,0,
".

Definition fraction_frame : DataFrame :=
  {| nrows := 2;
     columns :=
       [("COIN", ColObject [SStr "AAA"; SStr "BBB"]);
        ("PROFIT_USDT", ColFloat [f_10_5; f_m2_333]);
        ("MAX_DRAWDOWN_PCT", ColFloat [f_12_25; f_7_5]);
        ("TRADES", ColFloat [S754_finite false 29 (-1); S754_finite false 9 0]);
        ("STUCK_DAYS", ColInt [3; 0]);
        ("END_POSITIONS", ColFloat [S754_finite false 1 (-1); S754_nan])] |}.

Definition more_samples : list (string * DataFrame) :=
  sample_table ++ [(gap_text, gap_frame); (no_coin_text, no_coin_frame);
                   (break_text, break_frame);
                   (fraction_text, fraction_frame)].

Definition more_run (csv_text : string) : World :=
  csv_to_md sample_repr (table_read_csv more_samples) stable_argsort_desc
    csv_path md_path (world_with csv_text).

(** The sample world with a report from an earlier run in place. *)
Definition world_with_old_report (csv_text : string) : World :=
  set_file md_path "# an earlier report
" (world_with csv_text).

Definition f_0_125 : spec_float := S754_finite false 1 (-3).

(** * Properties *)

(** ** The formats on sample values *)

Example format_f_100 :
  format_float_f 2 (S754_finite false 100 0) = "100.00".
Proof. reflexivity. Qed.

Example format_f_10_5 :
  format_float_f 2 (S754_finite false 21 (-1)) = "10.50".
Proof. reflexivity. Qed.

(** 0.125 and 0.375 are ties at two decimals: to even. *)
Example format_f_ties :
  format_float_f 2 (S754_finite false 1 (-3)) = "0.12"
  /\ format_float_f 2 (S754_finite false 3 (-3)) = "0.38".
Proof. split; reflexivity. Qed.

Example format_f_m2_333 : format_float_f 2 f_m2_333 = "-2.33".
Proof. vm_compute. reflexivity. Qed.

(** [int_to_float] denotes the same number as the standard library's
    round-to-nearest-even normalisation at binary64 parameters. *)
Example int_to_float_agrees_with_binary_normalize :
  forallb (fun z => same_value (int_to_float z)
                      (binary_normalize 53 1024 z 0 false))
    [0; 1; -1; 3; 100; -7; 2 ^ 53 - 1; 2 ^ 53; 2 ^ 53 + 1; 2 ^ 53 + 3;
     - (2 ^ 60 + 129); 2 ^ 63 - 1; - 2 ^ 63] = true.
Proof. vm_compute. reflexivity. Qed.

Lemma append_nil_l (b : string) : "" +:+ b = b.
Proof. reflexivity. Qed.

Lemma append_cons (x : ascii) (a b : string) :
  String x a +:+ b = String x (a +:+ b).
Proof. reflexivity. Qed.

Lemma append_assoc (a b c : string) : (a +:+ b) +:+ c = a +:+ (b +:+ c).
Proof.
  induction a as [|x a IH]; [done|].
  by rewrite !append_cons, IH.
Qed.

Lemma append_empty_r (a : string) : a +:+ "" = a.
Proof.
  induction a as [|x a IH]; [done|].
  by rewrite append_cons, IH.
Qed.

Lemma length_append (a b : string) :
  String.length (a +:+ b) = (String.length a + String.length b)%nat.
Proof.
  induction a as [|x a IH]; [done|].
  rewrite append_cons. simpl. by rewrite IH.
Qed.

Lemma set_file_set_file path c c' w :
  set_file path c' (set_file path c w) = set_file path c' w.
Proof. unfold set_file; simpl. by rewrite insert_insert_eq. Qed.

Lemma f_write_set_file path c s w :
  f_write path s (set_file path c w) = (set_file path (c +:+ s) w, inr tt).
Proof.
  unfold f_write, set_file; simpl.
  by rewrite lookup_insert_eq, insert_insert_eq.
Qed.

Section Effects.

Variable repr_shortest : spec_float -> string.
Variable read_csv : string -> gmap string string -> Exception + DataFrame.
Variable argsort_desc : Column -> list nat.

Lemma write_rows_spec md rows c w :
  write_rows repr_shortest md rows (set_file md c w)
  = (set_file md (c +:+ join (render_rows repr_shortest rows).1) w,
     match (render_rows repr_shortest rows).2 with
     | None => inr tt
     | Some e => inl e
     end).
Proof.
  revert c. induction rows as [|row rows IH]; intros c.
  - simpl. by rewrite append_empty_r.
  - change (write_rows repr_shortest md (row :: rows))
      with (bind (lift (row_line repr_shortest row))
              (fun line => bind (f_write md line)
                 (fun _ => write_rows repr_shortest md rows))).
    cbn [render_rows]. unfold bind at 1, lift.
    destruct (row_line repr_shortest row) as [e|line].
    + unfold raise; simpl. by rewrite append_empty_r.
    + unfold ret, bind. rewrite f_write_set_file, IH.
      destruct (render_rows repr_shortest rows) as [ls oe].
      unfold join; simpl. by rewrite append_assoc.
Qed.

Lemma csv_to_md_outcome csv_file md_file w :
  csv_to_md repr_shortest read_csv argsort_desc csv_file md_file w
  = run_outcome repr_shortest read_csv argsort_desc csv_file md_file w.
Proof.
  unfold csv_to_md, run_outcome, try_block, sort_values.
  unfold mbind, M_bind. unfold bind at 1.
  destruct (read_csv csv_file (files w)) as [e|df]; [done|].
  unfold bind at 1, lift.
  destruct (lookup_col "PROFIT_USDT" (columns df)) as [key|]; [|done].
  unfold ret. unfold bind at 1, open_w.
  destruct (decide (md_file ∈ unwritable w)) as [Hro|Hrw]; [done|].
  change {| files := <[md_file:=""]> (files w);
            unwritable := unwritable w; console := console w |}
    with (set_file md_file "" w).
  unfold bind at 1. rewrite f_write_set_file.
  unfold bind at 1. rewrite f_write_set_file.
  unfold bind at 1. rewrite f_write_set_file.
  unfold bind at 1. rewrite f_write_set_file.
  unfold bind. rewrite write_rows_spec.
  destruct (render_rows repr_shortest _) as [ls oe]; cbn [fst snd].
  rewrite append_nil_l, !append_assoc.
  unfold header_block. rewrite !append_assoc.
  by destruct oe.
Qed.

End Effects.

(** ** Reordering rows keeps a frame valid *)

Lemma take_list_cons {A} (i : nat) (idx : list nat) (l : list A) :
  take_list (i :: idx) l
  = match l !! i with
    | Some x => x :: take_list idx l
    | None => take_list idx l
    end.
Proof. reflexivity. Qed.

Lemma take_list_fmap {A B} (f : A -> B) (idx : list nat) (l : list A) :
  take_list idx (f <$> l) = f <$> take_list idx l.
Proof.
  induction idx as [|i idx IH]; [done|].
  rewrite !take_list_cons, IH, list_lookup_fmap.
  by destruct (l !! i).
Qed.

Lemma take_list_length {A} (idx : list nat) (l : list A) :
  Forall (fun i => (i < length l)%nat) idx ->
  length (take_list idx l) = length idx.
Proof.
  induction 1 as [|i idx Hi _ IH]; [done|].
  rewrite take_list_cons.
  destruct (lookup_lt_is_Some_2 l i Hi) as [x ->].
  simpl. by rewrite IH.
Qed.

Lemma take_list_Forall {A} (P : A -> Prop) (idx : list nat) (l : list A) :
  Forall P l -> Forall P (take_list idx l).
Proof.
  intros Hl. induction idx as [|i idx IH]; [constructor|].
  rewrite take_list_cons. destruct (l !! i) as [x|] eqn:Hx; [|done].
  constructor; [|done]. exact (Forall_lookup_1 _ _ _ _ Hl Hx).
Qed.

Lemma take_list_mapM {A B} (f : A -> option B) idx (l : list A) (k : list B) :
  mapM f l = Some k -> mapM f (take_list idx l) = Some (take_list idx k).
Proof.
  intros H. apply mapM_Some in H. apply mapM_Some.
  induction idx as [|i idx IH]; [constructor|].
  rewrite !take_list_cons. destruct (l !! i) as [x|] eqn:Hx.
  - destruct (Forall2_lookup_l _ _ _ _ _ H Hx) as (y & -> & Hy).
    by constructor.
  - apply lookup_ge_None in Hx.
    rewrite (Forall2_length _ _ _ H) in Hx.
    apply lookup_ge_None in Hx. by rewrite Hx.
Qed.

Lemma lookup_col_take_rows name idx df :
  lookup_col name (columns (take_rows idx df))
  = take_col idx <$> lookup_col name (columns df).
Proof.
  unfold take_rows; simpl.
  induction (columns df) as [|[n c] cols IH]; [done|].
  simpl. by destruct (String.eqb n name).
Qed.

Lemma col_len_take_col idx c :
  Forall (fun i => (i < col_len c)%nat) idx ->
  col_len (take_col idx c) = length idx.
Proof. destruct c; simpl; apply take_list_length. Qed.

Lemma col_values_take_col idx c qs :
  col_values c = Some qs ->
  col_values (take_col idx c) = Some (take_list idx qs).
Proof.
  destruct c as [l|l|l]; simpl; [|apply take_list_mapM|done].
  intros [= <-]. f_equal.
  change (map inject_Z) with (fmap (M:=list) inject_Z).
  symmetry. apply take_list_fmap.
Qed.

Lemma take_list_seq_app {A} (l1 l2 : list A) :
  take_list (seq (length l1) (length l2)) (l1 ++ l2) = l2.
Proof.
  revert l1. induction l2 as [|x l2 IH]; intros l1; [done|].
  cbn [length seq]. rewrite take_list_cons.
  rewrite lookup_app_r, Nat.sub_diag by lia. cbn [lookup list_lookup].
  f_equal. specialize (IH (l1 ++ [x])).
  by rewrite length_app, Nat.add_1_r, <- app_assoc in IH.
Qed.

Lemma take_list_seq {A} (l : list A) : take_list (seq 0 (length l)) l = l.
Proof. exact (take_list_seq_app [] l). Qed.

Lemma take_list_perm {A} (idx : list nat) (l : list A) :
  idx ≡ₚ seq 0 (length l) -> take_list idx l ≡ₚ l.
Proof.
  intros H. rewrite <- (take_list_seq l) at 2.
  unfold take_list. by rewrite H.
Qed.

Lemma forallb_perm {A} (f : A -> bool) (l1 l2 : list A) :
  l1 ≡ₚ l2 -> forallb f l1 = forallb f l2.
Proof.
  induction 1 as [|x l1 l2 _ IH|x y l|l1 l2 l3 _ IH1 _ IH2]; simpl.
  - done.
  - by rewrite IH.
  - by destruct (f x), (f y).
  - by rewrite IH1.
Qed.

(** Reordering the rows of a column keeps its dtype. *)
Lemma col_dtype_take_col idx c :
  idx ≡ₚ seq 0 (col_len c) -> col_dtype (take_col idx c) = col_dtype c.
Proof.
  destruct c as [l|l|l]; simpl; try done.
  intros H. apply take_list_perm in H.
  by rewrite !(forallb_perm _ _ _ H).
Qed.

Lemma text_column_take_col idx c :
  text_column c = true -> text_column (take_col idx c) = true.
Proof.
  destruct c as [l|l|l]; simpl; try done.
  intros H. apply forallb_forall, List.Forall_forall, take_list_Forall.
  by apply List.Forall_forall, forallb_forall.
Qed.

Lemma numeric_column_take_col idx c :
  numeric_column c = true -> numeric_column (take_col idx c) = true.
Proof.
  unfold numeric_column. destruct (col_values c) as [qs|] eqn:E; [|done].
  by rewrite (col_values_take_col idx c qs E).
Qed.

Lemma has_col_take_rows (p : Column -> bool) name idx df :
  (forall c, p c = true -> p (take_col idx c) = true) ->
  has_col p name df = true -> has_col p name (take_rows idx df) = true.
Proof.
  unfold has_col. rewrite lookup_col_take_rows.
  destruct (lookup_col name (columns df)); simpl; auto.
Qed.

Lemma wf_frame_take_rows idx df :
  wf_frame_b df = true ->
  Forall (fun i => (i < nrows df)%nat) idx ->
  wf_frame_b (take_rows idx df) = true.
Proof.
  unfold wf_frame_b, take_rows; simpl. intros Hwf Hidx.
  rewrite forallb_forall in Hwf. apply forallb_forall.
  intros [n c] Hin. apply in_map_iff in Hin as ([n0 c0] & [= <- <-] & Hin).
  apply Hwf, Nat.eqb_eq in Hin. simpl in *.
  apply Nat.eqb_eq, col_len_take_col. by rewrite Hin.
Qed.

Lemma valid_frame_take_rows idx df :
  valid_frame df = true ->
  Forall (fun i => (i < nrows df)%nat) idx ->
  valid_frame (take_rows idx df) = true.
Proof.
  unfold valid_frame. rewrite !andb_true_iff.
  intros ((((((Hwf & H1) & H2) & H3) & H4) & H5) & H6) Hidx.
  repeat split.
  - by apply wf_frame_take_rows.
  - revert H1. apply has_col_take_rows, text_column_take_col.
  - revert H2. apply has_col_take_rows, numeric_column_take_col.
  - revert H3. apply has_col_take_rows, numeric_column_take_col.
  - revert H4. apply has_col_take_rows. by intros [l|l|l].
  - revert H5. apply has_col_take_rows, numeric_column_take_col.
  - revert H6. by apply has_col_take_rows.
Qed.

Lemma argsort_in_range argsort c :
  sort_contract argsort ->
  Forall (fun i => (i < col_len c)%nat) (argsort c).
Proof.
  intros [Hperm _]. rewrite (Hperm c).
  apply Forall_forall. intros i Hi. apply elem_of_seq in Hi. lia.
Qed.

Lemma argsort_length argsort c :
  sort_contract argsort -> length (argsort c) = col_len c.
Proof. intros [Hperm _]. by rewrite (Hperm c), length_seq. Qed.

Lemma argsort_perm argsort c n :
  sort_contract argsort -> col_len c = n -> argsort c ≡ₚ seq 0 n.
Proof. intros [Hperm _] <-. apply Hperm. Qed.

(** ** The rows of a reordered frame are the rows of the frame, reordered *)

Lemma take_list_lookup {A} (idx : list nat) (l : list A) (p : nat) :
  Forall (fun i => (i < length l)%nat) idx ->
  take_list idx l !! p = idx !! p ≫= (l !!.).
Proof.
  intros H. revert p. induction H as [|i idx Hi _ IH]; intros p; [done|].
  rewrite take_list_cons.
  destruct (lookup_lt_is_Some_2 l i Hi) as [x Hx]. rewrite Hx.
  destruct p as [|p]; simpl; [done | apply IH].
Qed.

Lemma cell_take_col dt idx c p i :
  Forall (fun i => (i < col_len c)%nat) idx ->
  idx !! p = Some i ->
  cell dt (take_col idx c) p = cell dt c i.
Proof.
  intros Hidx Hp.
  destruct c as [l|l|l]; simpl in *;
    by rewrite take_list_lookup, Hp by done.
Qed.

Lemma perm_seq_in_range (idx : list nat) n :
  idx ≡ₚ seq 0 n -> Forall (fun i => (i < n)%nat) idx.
Proof.
  intros H. rewrite H. apply Forall_forall.
  intros i Hi. apply elem_of_seq in Hi. lia.
Qed.

Lemma common_dtype_take_rows idx df :
  wf_frame_b df = true ->
  idx ≡ₚ seq 0 (nrows df) ->
  common_dtype (columns (take_rows idx df)) = common_dtype (columns df).
Proof.
  intros Hwf Hperm.
  unfold wf_frame_b in Hwf. rewrite forallb_forall in Hwf.
  unfold common_dtype, take_rows; cbn [columns].
  assert (E : forall d,
             map (fun nc : string * Column => is_dtype d nc.2)
               (map (fun nc => (nc.1, take_col idx nc.2)) (columns df))
             = map (fun nc : string * Column => is_dtype d nc.2) (columns df)).
  { intros d. rewrite map_map. apply map_ext_in. intros [n c] Hin. simpl.
    unfold is_dtype. rewrite col_dtype_take_col; [done|].
    apply Hwf, Nat.eqb_eq in Hin. simpl in Hin. by rewrite Hin. }
  assert (Ex : forall (cols : list (string * Column)) d,
             existsb (fun nc => is_dtype d nc.2) cols
             = existsb id (map (fun nc => is_dtype d nc.2) cols)).
  { intros cols d. induction cols as [|x cols IH]; [done|].
    simpl. by rewrite IH. }
  assert (Fa : forall (cols : list (string * Column)) d,
             forallb (fun nc => is_dtype d nc.2) cols
             = forallb id (map (fun nc => is_dtype d nc.2) cols)).
  { intros cols d. induction cols as [|x cols IH]; [done|].
    simpl. by rewrite IH. }
  by rewrite Ex, !Fa, !E, <- Ex, <- !Fa.
Qed.

Lemma row_at_take_rows idx df p i :
  wf_frame_b df = true ->
  idx ≡ₚ seq 0 (nrows df) ->
  idx !! p = Some i ->
  row_at (take_rows idx df) p = row_at df i.
Proof.
  intros Hwf Hperm Hp. unfold row_at.
  pose proof (perm_seq_in_range idx _ Hperm) as Hidx.
  rewrite common_dtype_take_rows by done. unfold take_rows; simpl.
  generalize (common_dtype (columns df)). intros dt.
  unfold wf_frame_b in Hwf. rewrite forallb_forall in Hwf.
  unfold omap.
  induction (columns df) as [|[n c] cols IH]; [done|].
  simpl. rewrite (cell_take_col _ idx c p i); [|  | done].
  - rewrite IH; [done|]. intros x Hx. apply Hwf. by right.
  - assert (E : col_len c = nrows df).
    { apply Nat.eqb_eq, (Hwf (n, c)). by left. }
    by rewrite E.
Qed.

Lemma iterrows_take_rows idx df :
  wf_frame_b df = true ->
  idx ≡ₚ seq 0 (nrows df) ->
  iterrows (take_rows idx df) = row_at df <$> idx.
Proof.
  intros Hwf Hidx. unfold iterrows.
  apply list_eq. intros p.
  change (map (row_at (take_rows idx df)))
    with (fmap (M:=list) (row_at (take_rows idx df))).
  rewrite !list_lookup_fmap. simpl.
  destruct (idx !! p) as [i|] eqn:Hp; simpl.
  - rewrite lookup_seq_lt by (by eapply lookup_lt_Some).
    simpl. f_equal. by apply row_at_take_rows.
  - rewrite lookup_seq_ge; [done|]. by apply lookup_ge_None.
Qed.

Lemma iterrows_sorted_perm argsort key df :
  sort_contract argsort ->
  wf_frame_b df = true ->
  col_len key = nrows df ->
  iterrows (take_rows (argsort key) df) ≡ₚ iterrows df.
Proof.
  intros Hc Hwf Hlen. destruct Hc as [Hperm _].
  rewrite iterrows_take_rows; [|done|by rewrite (Hperm key), Hlen].
  unfold iterrows. by rewrite (Hperm key), Hlen.
Qed.

(** ** The fields of a row of a valid frame *)

Lemma cell_is_Some dt c i :
  (i < col_len c)%nat -> is_Some (cell dt c i).
Proof.
  intros Hi. destruct c as [l|l|l]; simpl in *;
    destruct (lookup_lt_is_Some_2 l i Hi) as [x ->]; simpl; eauto.
Qed.

Lemma row_get_cells dt cols name i c :
  (forall nc, In nc cols -> (i < col_len nc.2)%nat) ->
  lookup_col name cols = Some c ->
  exists v, cell dt c i = Some v
    /\ row_get name
         (omap (fun nc : string * Column =>
                  v ← cell dt nc.2 i; Some (nc.1, v)) cols) = inr v.
Proof.
  unfold omap.
  induction cols as [|[n c0] cols IH]; intros Hlen Hlook; [done|].
  simpl in Hlook. simpl.
  destruct (cell_is_Some dt c0 i) as [v0 Hv0].
  { apply (Hlen (n, c0)). by left. }
  rewrite Hv0. simpl.
  destruct (String.eqb n name) eqn:En.
  - injection Hlook as <-. eauto.
  - apply IH; [|done]. intros nc Hin. apply Hlen. by right.
Qed.

Lemma row_get_missing dt cols name i :
  lookup_col name cols = None ->
  row_get name
    (omap (fun nc : string * Column =>
             v ← cell dt nc.2 i; Some (nc.1, v)) cols) = inl (KeyError name).
Proof.
  unfold omap.
  induction cols as [|[n c0] cols IH]; intros Hlook; [done|].
  simpl in Hlook. simpl.
  destruct (String.eqb n name) eqn:En; [done|].
  destruct (cell dt c0 i) as [v0|]; simpl; [|by apply IH].
  rewrite En. by apply IH.
Qed.

Lemma lookup_col_In name cols c :
  lookup_col name cols = Some c -> exists n, In (n, c) cols.
Proof.
  induction cols as [|[n c0] cols IH]; [done|]. simpl.
  destruct (String.eqb n name).
  - intros [= <-]. exists n. by left.
  - intros H. destruct (IH H) as [n' Hn']. exists n'. by right.
Qed.

Lemma common_dtype_object name cols c :
  lookup_col name cols = Some c -> col_dtype c = object ->
  common_dtype cols = object.
Proof.
  intros Hlook Hdt. destruct (lookup_col_In _ _ _ Hlook) as [n Hin].
  unfold common_dtype.
  assert (E : existsb (fun nc : string * Column => is_dtype object nc.2)
                cols = true).
  { apply existsb_exists. exists (n, c). split; [done|].
    unfold is_dtype. simpl. by rewrite Hdt. }
  by rewrite E.
Qed.

Lemma wf_frame_col_len df n c :
  wf_frame_b df = true -> In (n, c) (columns df) -> col_len c = nrows df.
Proof.
  unfold wf_frame_b. rewrite forallb_forall. intros H Hin.
  by apply Nat.eqb_eq, (H (n, c)).
Qed.

Lemma valid_frame_object df :
  valid_frame df = true -> common_dtype (columns df) = object.
Proof.
  unfold valid_frame. rewrite !andb_true_iff.
  intros ((((((_ & H1) & _) & _) & _) & _) & _).
  unfold has_col in H1.
  destruct (lookup_col "COIN" (columns df)) as [c|] eqn:E; [|done].
  apply (common_dtype_object _ _ _ E). by destruct c.
Qed.

Lemma valid_frame_wf df : valid_frame df = true -> wf_frame_b df = true.
Proof. unfold valid_frame. rewrite !andb_true_iff. tauto. Qed.

(** A field of row [i]: the cell of its column, uncast since the frame
    holds text. *)
Lemma row_get_valid df name c i :
  valid_frame df = true ->
  lookup_col name (columns df) = Some c ->
  (i < nrows df)%nat ->
  exists v, cell object c i = Some v
    /\ row_get name (row_at df i) = inr v.
Proof.
  intros Hv Hlook Hi. unfold row_at. rewrite (valid_frame_object df Hv).
  apply row_get_cells; [|done].
  intros [n c0] Hin. simpl.
  by rewrite (wf_frame_col_len df n c0 (valid_frame_wf df Hv) Hin).
Qed.

Lemma cell_numeric c qs i v :
  col_values c = Some qs -> cell object c i = Some v ->
  scalar_Q v = qs !! i /\ is_Some (scalar_Q v).
Proof.
  destruct c as [l|l|l]; simpl; [| |done].
  - intros [= <-] Hc. destruct (l !! i) as [z|] eqn:Hz; [|done].
    injection Hc as <-. simpl.
    change (map inject_Z l) with (inject_Z <$> l).
    rewrite list_lookup_fmap, Hz. eauto.
  - intros HM Hc. destruct (l !! i) as [f|] eqn:Hf; [|done].
    injection Hc as <-. simpl.
    apply mapM_Some in HM.
    destruct (Forall2_lookup_l _ _ _ _ _ HM Hf) as (q & Hq & Hfq).
    rewrite Hq, Hfq. eauto.
Qed.

Lemma cell_text c i v :
  text_column c = true -> cell object c i = Some v ->
  exists s, v = SStr s.
Proof.
  destruct c as [l|l|l]; simpl; try done.
  intros Hall Hc. rewrite forallb_forall in Hall.
  apply list_elem_of_lookup_2, list_elem_of_In, Hall in Hc.
  destruct v; try done. eauto.
Qed.

Lemma format_f_numeric k v :
  is_Some (scalar_Q v) -> format_f k v = inr (format_float_f k (to_float v)).
Proof. destruct v; simpl; by try intros [? ?]. Qed.

Lemma row_line_fields repr row coin profit dd trades stuck bags :
  RowFields row coin profit dd trades stuck bags ->
  row_line repr row = inr (line_text repr coin profit dd trades stuck bags).
Proof.
  intros [H1 H2 N2 H3 N3 H4 H5 N5 H6]. unfold row_line.
  rewrite H1, H2, (format_f_numeric 2 profit N2), H3,
    (format_f_numeric 2 dd N3), H4, H5, (format_f_numeric 1 stuck N5), H6.
  reflexivity.
Qed.

Lemma has_col_Some p name df :
  has_col p name df = true ->
  exists c, lookup_col name (columns df) = Some c /\ p c = true.
Proof.
  unfold has_col. destruct (lookup_col name (columns df)) as [c|]; [|done].
  eauto.
Qed.

Lemma numeric_column_values c :
  numeric_column c = true -> exists qs, col_values c = Some qs.
Proof.
  unfold numeric_column. destruct (col_values c) as [qs|]; [|done]. eauto.
Qed.

Lemma row_get_numeric df name i :
  valid_frame df = true ->
  has_col numeric_column name df = true ->
  (i < nrows df)%nat ->
  exists v, row_get name (row_at df i) = inr v /\ is_Some (scalar_Q v).
Proof.
  intros Hv Hc Hi.
  destruct (has_col_Some _ _ _ Hc) as (c & Hlook & Hnum).
  destruct (numeric_column_values c Hnum) as [qs Hqs].
  destruct (row_get_valid df name c i Hv Hlook Hi) as (v & Hcell & Hget).
  exists v. split; [done|]. by eapply cell_numeric.
Qed.

Lemma valid_row_fields df i :
  valid_frame df = true -> (i < nrows df)%nat ->
  exists coin profit dd trades stuck bags,
    RowFields (row_at df i) coin profit dd trades stuck bags.
Proof.
  intros Hv Hi. pose proof Hv as Hv'.
  unfold valid_frame in Hv'. rewrite !andb_true_iff in Hv'.
  destruct Hv' as ((((((_ & H1) & H2) & H3) & H4) & H5) & H6).
  destruct (has_col_Some _ _ _ H1) as (c1 & L1 & T1).
  destruct (row_get_valid df _ c1 i Hv L1 Hi) as (v1 & C1 & G1).
  destruct (cell_text c1 i v1 T1 C1) as [coin ->].
  destruct (row_get_numeric df _ i Hv H2 Hi) as (profit & G2 & N2).
  destruct (row_get_numeric df _ i Hv H3 Hi) as (dd & G3 & N3).
  destruct (has_col_Some _ _ _ H4) as (c4 & L4 & _).
  destruct (row_get_valid df _ c4 i Hv L4 Hi) as (trades & _ & G4).
  destruct (row_get_numeric df _ i Hv H5 Hi) as (stuck & G5 & N5).
  destruct (has_col_Some _ _ _ H6) as (c6 & L6 & _).
  destruct (row_get_valid df _ c6 i Hv L6 Hi) as (bags & _ & G6).
  exists coin, profit, dd, trades, stuck, bags. by constructor.
Qed.


(** ** A run on valid input *)

Lemma render_rows_all_ok repr rows lines :
  Forall2 (fun r l => row_line repr r = inr l) rows lines ->
  render_rows repr rows = (lines, None).
Proof.
  induction 1 as [|r l rows lines Hr _ IH]; [done|].
  simpl. by rewrite Hr, IH.
Qed.

Lemma valid_rows_render repr df idx :
  valid_frame df = true ->
  Forall (fun i => (i < nrows df)%nat) idx ->
  exists lines, Forall2 (renders repr df) idx lines.
Proof.
  intros Hv. induction 1 as [|i idx Hi _ [lines IH]].
  - exists []. constructor.
  - destruct (valid_row_fields df i Hv Hi)
      as (coin & profit & dd & trades & stuck & bags & HF).
    exists (line_text repr coin profit dd trades stuck bags :: lines).
    constructor; [|done]. unfold renders. eauto 10.
Qed.

Lemma renders_row_line repr df idx lines :
  Forall2 (renders repr df) idx lines ->
  Forall2 (fun r l => row_line repr r = inr l) (row_at df <$> idx) lines.
Proof.
  induction 1 as [|i l idx lines Hr _ IH]; [constructor|].
  simpl. constructor; [|done].
  destruct Hr as (coin & profit & dd & trades & stuck & bags & HF & ->).
  by apply row_line_fields.
Qed.

Section ValidRun.

Variable repr_shortest : spec_float -> string.
Variable read_csv : string -> gmap string string -> Exception + DataFrame.
Variable argsort_desc : Column -> list nat.
Hypothesis sort_ok : sort_contract argsort_desc.

Lemma valid_frame_profit_key df :
  valid_frame df = true ->
  exists key qs, lookup_col "PROFIT_USDT" (columns df) = Some key
    /\ col_values key = Some qs
    /\ col_len key = nrows df
    /\ length qs = nrows df.
Proof.
  intros Hv. pose proof Hv as Hv'.
  unfold valid_frame in Hv'. rewrite !andb_true_iff in Hv'.
  destruct Hv' as ((((((Hwf & _) & H2) & _) & _) & _) & _).
  destruct (has_col_Some _ _ _ H2) as (key & Hlook & Hnum).
  destruct (numeric_column_values key Hnum) as [qs Hqs].
  destruct (lookup_col_In _ _ _ Hlook) as [n Hin].
  pose proof (wf_frame_col_len df n key Hwf Hin) as Hlen.
  exists key, qs. repeat split; try done.
  rewrite <- Hlen. destruct key as [l|l|l]; simpl in *; [| |done].
  - injection Hqs as <-. by rewrite length_map.
  - symmetry. by eapply length_mapM.
Qed.

Lemma valid_run csv_file md_file w df :
  read_csv csv_file (files w) = inr df ->
  valid_frame df = true ->
  md_file ∉ unwritable w ->
  exists key lines,
    lookup_col "PROFIT_USDT" (columns df) = Some key
    /\ Forall2 (renders repr_shortest df) (argsort_desc key) lines
    /\ csv_to_md repr_shortest read_csv argsort_desc csv_file md_file w
       = print (success_message (nrows df) md_file)
           (set_file md_file (header_block +:+ join lines) w).
Proof.
  intros Hread Hv Hw.
  destruct (valid_frame_profit_key df Hv) as (key & qs & Hlook & _ & Hlen & _).
  assert (Hidx : Forall (fun i => (i < nrows df)%nat) (argsort_desc key)).
  { rewrite <- Hlen. by apply argsort_in_range. }
  destruct (valid_rows_render repr_shortest df _ Hv Hidx) as [lines Hlines].
  exists key, lines. repeat split; try done.
  rewrite csv_to_md_outcome. unfold run_outcome.
  rewrite Hread, Hlook. rewrite decide_False by done.
  rewrite (iterrows_take_rows _ df (valid_frame_wf df Hv)
             (argsort_perm _ key _ sort_ok Hlen)).
  rewrite (render_rows_all_ok _ _ lines (renders_row_line _ _ _ _ Hlines)).
  simpl. by rewrite (argsort_length _ key sort_ok), Hlen.
Qed.

End ValidRun.

(** ** Both sorts keep the promise *)

Lemma col_keys_length c : length (col_keys c) = col_len c.
Proof. destruct c; simpl; by rewrite length_map. Qed.

Lemma keyed_snd c : (keyed c).*2 = seq 0 (col_len c).
Proof.
  unfold keyed. apply snd_zip. by rewrite length_seq, col_keys_length.
Qed.

Lemma float_key_finite f q : float_Q f = Some q -> float_key f = (2, q).
Proof. destruct f as [s|s| |s m e]; simpl; try done; by intros [= <-]. Qed.

Lemma keyed_elem c qs x :
  col_values c = Some qs -> x ∈ keyed c ->
  x.1.1 = 2 /\ qs !! x.2 = Some x.1.2.
Proof.
  intros Hqs Hx. destruct x as [k i]. simpl.
  apply list_elem_of_lookup_1 in Hx as [p Hp].
  unfold keyed in Hp. apply lookup_zip_Some in Hp as [Hk Hi].
  apply lookup_seq in Hi as [-> _]. simpl in *.
  destruct c as [l|l|l]; simpl in *; [| |done].
  - injection Hqs as <-.
    rewrite list_lookup_fmap in Hk. rewrite list_lookup_fmap.
    destruct (l !! p) as [z|]; [|done]. by injection Hk as <-.
  - rewrite list_lookup_fmap in Hk.
    destruct (l !! p) as [f|] eqn:Hf; [|done]. injection Hk as <-.
    apply mapM_Some in Hqs.
    destruct (Forall2_lookup_l _ _ _ _ _ Hqs Hf) as (q & Hq & Hfq).
    by rewrite (float_key_finite f q Hfq).
Qed.

Lemma lex_leb_value tie x y :
  x.1.1 = 2 -> y.1.1 = 2 -> lex_leb tie x y = true -> (y.1.2 <= x.1.2)%Q.
Proof.
  intros Hx Hy. rewrite lex_leb_spec, key_before_spec, key_same_spec.
  intros [[H|[_ H]]|[[_ H] _]].
  - exfalso. lia.
  - by apply Qlt_le_weak.
  - rewrite H. apply Qle_refl.
Qed.

Lemma sorted_keys_descending tie (sorted : list (SortKey * nat)) qs :
  (forall x, x ∈ sorted -> x.1.1 = 2 /\ qs !! x.2 = Some x.1.2) ->
  StronglySorted (fun x y => lex_leb tie x y = true) sorted ->
  take_list sorted.*2 qs = (fun x => x.1.2) <$> sorted
  /\ descending (take_list sorted.*2 qs).
Proof.
  intros Hin Hs. induction Hs as [|x sorted Hs IH Hall].
  - split; [done | constructor].
  - destruct IH as [IH1 IH2].
    { intros y Hy. apply Hin. by right. }
    destruct (Hin x) as [Hx1 Hx2]; [by left|].
    assert (E : take_list (x :: sorted).*2 qs
                = x.1.2 :: take_list sorted.*2 qs).
    { by rewrite fmap_cons, take_list_cons, Hx2. }
    rewrite E. split; [by rewrite IH1|].
    constructor; [done|].
    rewrite IH1. apply Forall_fmap, Forall_forall. intros y Hy. simpl.
    rewrite Forall_forall in Hall.
    apply (lex_leb_value tie x y); [done| |by apply Hall].
    apply Hin. by right.
Qed.

Lemma stable_argsort_desc_contract : sort_contract stable_argsort_desc.
Proof.
  split.
  - intros c. unfold stable_argsort_desc.
    rewrite <- (SortInOrder.Permuted_sort (keyed c)). by rewrite keyed_snd.
  - intros c qs Hqs. unfold stable_argsort_desc.
    apply (sorted_keys_descending Nat.leb).
    + intros x Hx. apply (keyed_elem c qs x Hqs).
      by rewrite (SortInOrder.Permuted_sort (keyed c)).
    + apply SortInOrder.StronglySorted_sort.
      intros x y z. apply lex_leb_trans.
      intros i j k Hij Hjk. apply Nat.leb_le in Hij, Hjk.
      apply Nat.leb_le. lia.
Qed.


(** ** Shape of the fixed-point text *)

Lemma digit_val_digit_char d :
  0 <= d < 10 -> Dec.digit_val (Dec.digit_char d) = Some d.
Proof.
  intros H.
  assert (E : d = 0 \/ d = 1 \/ d = 2 \/ d = 3 \/ d = 4 \/ d = 5 \/ d = 6
              \/ d = 7 \/ d = 8 \/ d = 9) by lia.
  repeat (destruct E as [->|E]; [reflexivity|]). by subst.
Qed.

Lemma is_digit_digit_char n : is_digit (Dec.digit_char (n mod 10)) = true.
Proof.
  unfold is_digit. rewrite digit_val_digit_char; [done|].
  apply Z.mod_pos_bound. lia.
Qed.

Lemma all_digits_app a b :
  all_digits (a +:+ b) = all_digits a && all_digits b.
Proof.
  induction a as [|c a IH]; [done|].
  rewrite append_cons. simpl. by rewrite IH, andb_assoc.
Qed.

Lemma digits_fuel_digits fuel n acc :
  all_digits acc = true -> all_digits (Dec.digits_fuel fuel n acc) = true.
Proof.
  revert n acc. induction fuel as [|fuel IH]; intros n acc Hacc; [done|].
  simpl. destruct (n / 10 =? 0).
  - simpl. by rewrite is_digit_digit_char.
  - apply IH. simpl. by rewrite is_digit_digit_char.
Qed.

Lemma digits_fuel_nonempty fuel n acc :
  Dec.digits_fuel (S fuel) n acc <> "".
Proof.
  revert n acc. induction fuel as [|fuel IH]; intros n acc.
  - simpl. by destruct (n / 10 =? 0).
  - change (Dec.digits_fuel (S (S fuel)) n acc)
      with (let acc' := String (Dec.digit_char (n mod 10)) acc in
            if n / 10 =? 0 then acc'
            else Dec.digits_fuel (S fuel) (n / 10) acc').
    simpl. destruct (n / 10 =? 0); [done | apply IH].
Qed.

Lemma of_Z_nonneg_digits n : all_digits (Dec.of_Z_nonneg n) = true.
Proof. by apply digits_fuel_digits. Qed.

Lemma of_Z_nonneg_nonempty n : Dec.of_Z_nonneg n <> "".
Proof. apply digits_fuel_nonempty. Qed.

Lemma fixed_digits_digits k r : all_digits (Dec.fixed_digits k r) = true.
Proof.
  revert r. induction k as [|k IH]; intros r; [done|].
  simpl. rewrite all_digits_app, IH. simpl.
  by rewrite is_digit_digit_char.
Qed.

Lemma fixed_digits_length k r : String.length (Dec.fixed_digits k r) = k.
Proof.
  revert r. induction k as [|k IH]; intros r; [done|].
  simpl. rewrite length_append, IH. simpl. lia.
Qed.

Lemma split_dot_digits a b :
  all_digits a = true -> split_dot (a +:+ String "." b) = Some (a, b).
Proof.
  induction a as [|c a IH]; intros Ha; [done|].
  rewrite append_cons. simpl in *.
  apply andb_true_iff in Ha as [Hc Ha].
  destruct (Ascii.eqb_spec c ".") as [->|_]; [done|].
  by rewrite IH.
Qed.

Lemma strip_minus_digits a b :
  all_digits a = true -> a <> "" -> strip_minus (a +:+ b) = (false, a +:+ b).
Proof.
  intros Ha Hne. destruct a as [|c a']; [done|]. rewrite append_cons.
  simpl in Ha. apply andb_true_iff in Ha as [Hc _].
  unfold strip_minus.
  destruct c as [[] [] [] [] [] [] [] []]; done.
Qed.

Lemma is_fixed_point_signed k s r :
  is_fixed_point (S k) (sign_text s +:+ fixed_text (S k) r) = true.
Proof.
  assert (Hbody : forall t,
             (strip_minus t).2 = fixed_text (S k) r ->
             is_fixed_point (S k) t = true).
  { intros t Ht. unfold is_fixed_point. rewrite Ht. unfold fixed_text.
    pose proof (of_Z_nonneg_digits (r / 10 ^ Z.of_nat (S k))) as Ha.
    pose proof (of_Z_nonneg_nonempty (r / 10 ^ Z.of_nat (S k))) as Hne.
    rewrite split_dot_digits by done.
    rewrite Ha, fixed_digits_digits, fixed_digits_length, Nat.eqb_refl.
    by destruct (Dec.of_Z_nonneg (r / 10 ^ Z.of_nat (S k))). }
  apply Hbody. destruct s; cbn [sign_text].
  - reflexivity.
  - rewrite append_nil_l. unfold fixed_text.
    rewrite strip_minus_digits;
      [done | apply of_Z_nonneg_digits | apply of_Z_nonneg_nonempty].
Qed.

Lemma format_float_f_fixed k x :
  is_finite x = true -> is_fixed_point (S k) (format_float_f (S k) x) = true.
Proof.
  destruct x as [s|s| |s m e]; try done; intros _; unfold format_float_f;
    apply is_fixed_point_signed.
Qed.

Lemma to_float_finite v : is_Some (scalar_Q v) -> is_finite (to_float v) = true.
Proof.
  destruct v as [z|f|t]; simpl.
  - intros _. unfold int_to_float.
    destruct (z =? 0); [done|]. by destruct (Z.log2 (Z.abs z) - 52 <=? 0).
  - destruct f; simpl; try done; by intros [? ?].
  - by intros [? ?].
Qed.

Lemma descending_b_complete qs : descending qs -> descending_b qs = true.
Proof.
  induction 1 as [|q qs _ IH Hall]; [done|].
  simpl. rewrite IH, andb_true_r.
  apply forallb_forall. intros b Hb.
  apply Qle_bool_iff. rewrite List.Forall_forall in Hall. by apply Hall.
Qed.

(** The order of three distinct keys is forced. *)
Lemma scenario_a_order argsort :
  sort_contract argsort ->
  argsort (ColFloat [f_10_5; f_m2_333; f_100]) = [2; 0; 1]%nat.
Proof.
  intros [Hperm Hsort].
  specialize (Hperm (ColFloat [f_10_5; f_m2_333; f_100])).
  pose proof (Hsort (ColFloat [f_10_5; f_m2_333; f_100]) _ eq_refl) as Hd.
  apply descending_b_complete in Hd.
  set (idx := argsort _) in *. simpl in Hperm.
  assert (Hlen : length idx = 3%nat) by (by rewrite Hperm).
  assert (Hnd : NoDup idx).
  { rewrite Hperm. apply (NoDup_seq 0 3). }
  assert (Hin : forall i, i ∈ idx -> i = 0%nat \/ i = 1%nat \/ i = 2%nat).
  { intros i Hi. rewrite Hperm in Hi. set_unfold. lia. }
  destruct idx as [|a [|b [|c [|d rest] ] ] ]; try discriminate Hlen.
  pose proof (Hin a ltac:(left)) as Ha.
  pose proof (Hin b ltac:(right; left)) as Hb.
  pose proof (Hin c ltac:(right; right; left)) as Hc.
  apply NoDup_cons in Hnd as [Hab Hnd].
  apply NoDup_cons in Hnd as [Hbc _].
  apply not_elem_of_cons in Hab as [Hab Hac].
  apply not_elem_of_cons in Hac as [Hac _].
  apply not_elem_of_cons in Hbc as [Hbc _].
  destruct Ha as [-> | [-> | ->] ], Hb as [-> | [-> | ->] ],
    Hc as [-> | [-> | ->] ];
    try done; vm_compute in Hd; discriminate Hd.
Qed.

(** ** Rounding is monotone *)

Lemma round_half_even_spec n d :
  0 < d ->
  let q := round_half_even n d in
  2 * n - d <= 2 * (q * d) <= 2 * n + d
  /\ (2 * (q * d) = 2 * n + d -> Z.even q = true)
  /\ (2 * (q * d) = 2 * n - d -> Z.even q = true).
Proof.
  intros Hd. unfold round_half_even.
  pose proof (Z.div_mod n d ltac:(lia)) as E.
  pose proof (Z.mod_pos_bound n d Hd) as B.
  set (q0 := n / d) in *. set (r := n mod d) in *.
  assert (Em : d * q0 = q0 * d) by lia.
  destruct (Z.ltb_spec (2 * r) d) as [H1|H1]; [cbn zeta; lia|].
  destruct (Z.ltb_spec d (2 * r)) as [H2|H2].
  { cbn zeta. replace ((q0 + 1) * d) with (q0 * d + d) by lia. lia. }
  destruct (Z.even q0) eqn:Ev; cbn zeta.
  - split; [lia|]. split; intros; first [assumption | lia].
  - replace ((q0 + 1) * d) with (q0 * d + d) by lia.
    assert (Z.even (q0 + 1) = true).
    { rewrite Z.even_add, Ev. reflexivity. }
    split; [lia|]. split; intros; first [assumption | lia].
Qed.

Lemma round_half_even_mono n1 d1 n2 d2 :
  0 < d1 -> 0 < d2 -> n1 * d2 <= n2 * d1 ->
  round_half_even n1 d1 <= round_half_even n2 d2.
Proof.
  intros H1 H2 Hle.
  destruct (round_half_even_spec n1 d1 H1) as ([L1 U1] & A1 & B1).
  destruct (round_half_even_spec n2 d2 H2) as ([L2 U2] & A2 & B2).
  set (q1 := round_half_even n1 d1) in *.
  set (q2 := round_half_even n2 d2) in *.
  destruct (Z_le_gt_dec q1 q2) as [|Hgt]; [assumption|exfalso].
  assert (S1 : (2 * q1 - 1) * (d1 * d2) <= 2 * (n1 * d2)) by nia.
  assert (S2 : 2 * (n2 * d1) <= (2 * q2 + 1) * (d1 * d2)) by nia.
  assert (P : 0 < d1 * d2) by nia.
  assert (Q : q1 = q2 + 1) by nia.
  assert (E1 : 2 * (q1 * d1) = 2 * n1 + d1) by nia.
  assert (E2 : 2 * (q2 * d2) = 2 * n2 - d2) by nia.
  specialize (A1 E1). specialize (B2 E2).
  rewrite Q, Z.even_add, B2 in A1. discriminate A1.
Qed.

Lemma round_half_even_exact q d : 0 < d -> round_half_even (q * d) d = q.
Proof.
  intros Hd. unfold round_half_even.
  rewrite Z.div_mul, Z.mod_mul by lia.
  destruct (Z.ltb_spec (2 * 0) d); [done | lia].
Qed.

Lemma round_half_even_one n : round_half_even n 1 = n.
Proof. rewrite <- (Z.mul_1_r n) at 1. by apply round_half_even_exact. Qed.

Lemma round_half_even_nonneg n d : 0 < d -> 0 <= n -> 0 <= round_half_even n d.
Proof.
  intros Hd Hn. rewrite <- (round_half_even_exact 0 d Hd).
  apply round_half_even_mono; lia.
Qed.

(** ** What a finite float shows is monotone in its value *)

Lemma fden_pos x : 0 < fden x.
Proof.
  destruct x as [s|s| |s m e]; simpl; try lia.
  destruct (Z.leb_spec 0 e); [lia|]. apply Z.pow_pos_nonneg; lia.
Qed.

Lemma float_Q_fraction x q :
  float_Q x = Some q -> (q == fnum x # Z.to_pos (fden x))%Q.
Proof.
  destruct x as [s|s| |s m e]; simpl; try done.
  - by intros [= <-].
  - intros [= <-]. unfold finite_Q.
    destruct (0 <=? e), s; simpl; reflexivity.
Qed.

Lemma shown_fraction k x :
  shown k x
  = if fnum x <? 0
    then - round_half_even (- fnum x * 10 ^ Z.of_nat k) (fden x)
    else round_half_even (fnum x * 10 ^ Z.of_nat k) (fden x).
Proof.
  destruct x as [s|s| |s m e]; try done.
  unfold shown, fnum, fden, scaled_round.
  assert (P : 0 < 2 ^ e \/ e < 0).
  { destruct (Z.le_gt_cases 0 e); [left; by apply Z.pow_pos_nonneg | by right]. }
  destruct (0 <=? e) eqn:He, s.
  - apply Z.leb_le in He. destruct P as [P|P]; [|lia].
    destruct (Z.ltb_spec (- (Z.pos m * 2 ^ e)) 0); [|nia].
    by rewrite Z.opp_involutive, round_half_even_one.
  - apply Z.leb_le in He. destruct P as [P|P]; [|lia].
    destruct (Z.ltb_spec (Z.pos m * 2 ^ e) 0); [nia|].
    by rewrite round_half_even_one.
  - destruct (Z.ltb_spec (- Z.pos m) 0); [|lia].
    by rewrite Z.opp_involutive.
  - by destruct (Z.ltb_spec (Z.pos m) 0); [lia|].
Qed.

Lemma shown_mono_fraction k x y :
  fnum x * fden y <= fnum y * fden x -> shown k x <= shown k y.
Proof.
  intros Hle. rewrite !shown_fraction.
  pose proof (fden_pos x) as Dx. pose proof (fden_pos y) as Dy.
  assert (T : 0 < 10 ^ Z.of_nat k) by (apply Z.pow_pos_nonneg; lia).
  destruct (Z.ltb_spec (fnum x) 0) as [Nx|Nx],
           (Z.ltb_spec (fnum y) 0) as [Ny|Ny].
  - apply Z.opp_le_mono. rewrite !Z.opp_involutive.
    apply round_half_even_mono; [done..|]. nia.
  - pose proof (round_half_even_nonneg (- fnum x * 10 ^ Z.of_nat k) (fden x)
                  Dx ltac:(nia)).
    pose proof (round_half_even_nonneg (fnum y * 10 ^ Z.of_nat k) (fden y)
                  Dy ltac:(nia)).
    lia.
  - exfalso. nia.
  - apply round_half_even_mono; [done..|]. nia.
Qed.

Lemma shown_mono k x y qx qy :
  float_Q x = Some qx -> float_Q y = Some qy -> (qx <= qy)%Q ->
  shown k x <= shown k y.
Proof.
  intros Hx Hy Hle. apply shown_mono_fraction.
  rewrite (float_Q_fraction x qx Hx), (float_Q_fraction y qy Hy) in Hle.
  unfold Qle in Hle. simpl in Hle.
  pose proof (fden_pos x). pose proof (fden_pos y).
  by rewrite !Z2Pos.id in Hle.
Qed.

(** ** The conversion of integers is monotone *)

Lemma int_magnitude_bounds a :
  0 < a ->
  let k := Z.log2 a - 52 in
  (k <= 0 -> int_magnitude a = a)
  /\ (0 < k -> 2 ^ 52 <= round_half_even a (2 ^ k) <= 2 ^ 53
              /\ int_magnitude a = round_half_even a (2 ^ k) * 2 ^ k).
Proof.
  intros Ha k. unfold int_magnitude. fold k.
  destruct (Z.leb_spec k 0) as [Hk|Hk].
  { split; [reflexivity | lia]. }
  split; [lia|]. intros _. split; [|reflexivity].
  pose proof (Z.log2_spec a Ha) as [Lo Hi].
  assert (P : 0 < 2 ^ k) by (apply Z.pow_pos_nonneg; lia).
  assert (E1 : 2 ^ Z.log2 a = 2 ^ 52 * 2 ^ k).
  { rewrite <- Z.pow_add_r by lia. f_equal. lia. }
  assert (E2 : 2 ^ Z.succ (Z.log2 a) = 2 ^ 53 * 2 ^ k).
  { rewrite <- Z.pow_add_r by lia. f_equal. lia. }
  split.
  - rewrite <- (round_half_even_exact (2 ^ 52) (2 ^ k) P).
    apply round_half_even_mono; try done. nia.
  - rewrite <- (round_half_even_exact (2 ^ 53) (2 ^ k) P).
    apply round_half_even_mono; try done. nia.
Qed.

Lemma int_magnitude_mono a b : 0 < a -> a <= b -> int_magnitude a <= int_magnitude b.
Proof.
  intros Ha Hab. assert (Hb : 0 < b) by lia.
  pose proof (int_magnitude_bounds a Ha) as [A1 A2].
  pose proof (int_magnitude_bounds b Hb) as [B1 B2].
  pose proof (Z.log2_le_mono a b Hab) as Hl.
  pose proof (Z.log2_spec a Ha) as [La Ua].
  pose proof (Z.log2_spec b Hb) as [Lb Ub].
  cbn zeta in *.
  set (ka := Z.log2 a - 52) in *. set (kb := Z.log2 b - 52) in *.
  destruct (Z_le_gt_dec kb 0) as [Hkb|Hkb].
  - rewrite A1, B1 by lia. exact Hab.
  - destruct (B2 ltac:(lia)) as [[Rb1 Rb2] ->].
    assert (Pb : 0 < 2 ^ kb) by (apply Z.pow_pos_nonneg; lia).
    destruct (Z_le_gt_dec ka 0) as [Hka|Hka].
    + rewrite A1 by lia.
      assert (a < 2 ^ 53).
      { eapply Z.lt_le_trans; [exact Ua|]. apply Z.pow_le_mono_r; lia. }
      assert (2 ^ 1 <= 2 ^ kb) by (apply Z.pow_le_mono_r; lia).
      change (2 ^ 1) with 2 in *. change (2 ^ 53) with (2 ^ 52 * 2) in *. nia.
    + destruct (A2 ltac:(lia)) as [[Ra1 Ra2] ->].
      assert (Pa : 0 < 2 ^ ka) by (apply Z.pow_pos_nonneg; lia).
      destruct (Z.eq_dec ka kb) as [E|NE].
      * rewrite E. apply Z.mul_le_mono_nonneg_r; [lia|].
        apply round_half_even_mono; try done. nia.
      * assert (Hk : ka + 1 <= kb) by lia.
        assert (2 ^ (ka + 1) <= 2 ^ kb) by (apply Z.pow_le_mono_r; lia).
        rewrite Z.pow_add_r in H by lia. change (2 ^ 1) with 2 in H.
        change (2 ^ 53) with (2 ^ 52 * 2) in *. nia.
Qed.

Lemma int_magnitude_pos a : 0 < a -> 0 < int_magnitude a.
Proof.
  intros Ha. pose proof (int_magnitude_bounds a Ha) as [A1 A2].
  cbn zeta in *.
  destruct (Z_le_gt_dec (Z.log2 a - 52) 0) as [Hk|Hk].
  - rewrite A1; lia.
  - destruct (A2 ltac:(lia)) as [[R1 R2] ->].
    assert (0 < 2 ^ (Z.log2 a - 52)) by (apply Z.pow_pos_nonneg; lia).
    nia.
Qed.

Lemma fden_int_to_float z : fden (int_to_float z) = 1.
Proof.
  unfold int_to_float. destruct (z =? 0); [done|].
  destruct (Z.leb_spec (Z.log2 (Z.abs z) - 52) 0) as [Hk|Hk]; simpl; [done|].
  destruct (Z.leb_spec 0 (Z.log2 (Z.abs z) - 52)); [done | lia].
Qed.

Lemma fnum_int_to_float z :
  fnum (int_to_float z)
  = if z <? 0 then - int_magnitude (- z)
    else if z =? 0 then 0 else int_magnitude z.
Proof.
  unfold int_to_float.
  destruct (Z.eqb_spec z 0) as [->|Hz]; [done|].
  assert (Habs : 0 < Z.abs z) by lia.
  pose proof (int_magnitude_bounds (Z.abs z) Habs) as [A1 A2].
  cbn zeta in *. clear A1.
  assert (E : forall a, a = Z.abs z ->
            int_magnitude a
            = if Z.log2 (Z.abs z) - 52 <=? 0 then Z.abs z
              else round_half_even (Z.abs z) (2 ^ (Z.log2 (Z.abs z) - 52))
                   * 2 ^ (Z.log2 (Z.abs z) - 52)).
  { by intros a ->. }
  assert (Em : (if z <? 0 then - int_magnitude (- z) else int_magnitude z)
               = if z <? 0 then - int_magnitude (Z.abs z)
                 else int_magnitude (Z.abs z)).
  { destruct (Z.ltb_spec z 0).
    - by replace (Z.abs z) with (- z) by lia.
    - by replace (Z.abs z) with z by lia. }
  rewrite Em, (E (Z.abs z) eq_refl). clear E Em.
  set (k := Z.log2 (Z.abs z) - 52) in *.
  destruct (Z.leb_spec k 0) as [Hk|Hk]; simpl.
  - rewrite Z2Pos.id by lia. change (2 ^ 0) with 1.
    destruct (z <? 0); lia.
  - destruct (A2 Hk) as [[R1 R2] _].
    destruct (Z.leb_spec 0 k); [|lia].
    rewrite Z2Pos.id by lia. by destruct (z <? 0).
Qed.

Lemma shown_int_mono k z1 z2 :
  z1 <= z2 -> shown k (int_to_float z1) <= shown k (int_to_float z2).
Proof.
  intros Hle. apply shown_mono_fraction.
  rewrite !fden_int_to_float, !Z.mul_1_r, !fnum_int_to_float.
  destruct (Z.ltb_spec z1 0) as [N1|N1], (Z.ltb_spec z2 0) as [N2|N2].
  - apply Z.opp_le_mono. rewrite !Z.opp_involutive.
    apply int_magnitude_mono; lia.
  - pose proof (int_magnitude_pos (- z1) ltac:(lia)).
    destruct (Z.eqb_spec z2 0); [lia|].
    pose proof (int_magnitude_pos z2 ltac:(lia)). lia.
  - lia.
  - destruct (Z.eqb_spec z1 0), (Z.eqb_spec z2 0); try lia.
    + pose proof (int_magnitude_pos z2 ltac:(lia)). lia.
    + apply int_magnitude_mono; lia.
Qed.

(** ** Reading decimal text back *)

Lemma parse_acc_app a b acc :
  Dec.parse_acc (a +:+ b) acc = Dec.parse_acc a acc ≫= Dec.parse_acc b.
Proof.
  revert acc. induction a as [|c a IH]; intros acc; [done|].
  rewrite append_cons. simpl.
  destruct (Dec.digit_val c); [apply IH | done].
Qed.

Lemma parse_acc_digit n acc :
  0 <= n ->
  Dec.parse_acc (String (Dec.digit_char (n mod 10)) "") acc
  = Some (10 * acc + n mod 10).
Proof.
  intros Hn. simpl. rewrite digit_val_digit_char; [done|].
  apply Z.mod_pos_bound. lia.
Qed.

Lemma digits_fuel_spec fuel n acc :
  0 <= n < 2 ^ Z.of_nat fuel ->
  exists D, Dec.digits_fuel fuel n acc = D +:+ acc
    /\ forall a, Dec.parse_acc D a
                 = Some (a * 10 ^ Z.of_nat (String.length D) + n).
Proof.
  revert n acc. induction fuel as [|fuel IH]; intros n acc Hn.
  - exists "". split; [done|]. intros a. simpl in *.
    f_equal. lia.
  - cbn [Dec.digits_fuel].
    pose proof (Z.div_mod n 10 ltac:(lia)) as Hdm.
    pose proof (Z.mod_pos_bound n 10 ltac:(lia)) as Hm.
    destruct (Z.eqb_spec (n / 10) 0) as [Hz|Hz].
    + exists (String (Dec.digit_char (n mod 10)) ""). split; [done|].
      intros a. rewrite parse_acc_digit by lia. f_equal. simpl. lia.
    + destruct (IH (n / 10) (String (Dec.digit_char (n mod 10)) acc))
        as (D & HD & HP).
      { rewrite Nat2Z.inj_succ, Z.pow_succ_r in Hn by lia.
        split; [apply Z.div_pos; lia|].
        apply Z.div_lt_upper_bound; lia. }
      exists (D +:+ String (Dec.digit_char (n mod 10)) ""). split.
      * rewrite HD, append_assoc. done.
      * intros a. rewrite parse_acc_app, HP. simpl.
        rewrite digit_val_digit_char by lia. f_equal.
        rewrite length_append. simpl String.length.
        rewrite Nat2Z.inj_add, Z.pow_add_r by lia.
        change (10 ^ Z.of_nat 1) with 10. lia.
Qed.

Lemma parse_nonneg_of_Z n :
  0 <= n -> Dec.parse_nonneg (Dec.of_Z_nonneg n) = Some n.
Proof.
  intros Hn. unfold Dec.of_Z_nonneg.
  destruct (digits_fuel_spec (S (Z.to_nat (Z.log2 n))) n "") as (D & HD & HP).
  { split; [done|]. rewrite Nat2Z.inj_succ, Z2Nat.id by apply Z.log2_nonneg.
    destruct (Z.eq_dec n 0) as [->|Hz]; [done|].
    apply Z.log2_spec. lia. }
  pose proof (digits_fuel_nonempty (Z.to_nat (Z.log2 n)) n "") as Hne.
  rewrite HD in *. rewrite append_empty_r in *.
  unfold Dec.parse_nonneg. destruct D as [|c D]; [done|].
  rewrite HP; f_equal; lia.
Qed.

Lemma parse_acc_fixed_digits k r a :
  0 <= r ->
  Dec.parse_acc (Dec.fixed_digits k r) a
  = Some (a * 10 ^ Z.of_nat k + r mod 10 ^ Z.of_nat k).
Proof.
  revert r a. induction k as [|k IH]; intros r a Hr.
  - simpl. f_equal. rewrite Z.mod_1_r. lia.
  - cbn [Dec.fixed_digits]. rewrite parse_acc_app, IH.
    2:{ apply Z.div_pos; lia. }
    cbn [mbind option_bind]. rewrite parse_acc_digit by done. f_equal.
    rewrite Nat2Z.inj_succ, Z.pow_succ_r by lia.
    rewrite (Z.rem_mul_r r 10 (10 ^ Z.of_nat k)) by lia. lia.
Qed.

Lemma parse_nonneg_fixed_digits k r :
  0 <= r ->
  Dec.parse_nonneg (Dec.fixed_digits (S k) r)
  = Some (r mod 10 ^ Z.of_nat (S k)).
Proof.
  intros Hr. unfold Dec.parse_nonneg.
  pose proof (fixed_digits_length (S k) r) as Hlen.
  destruct (Dec.fixed_digits (S k) r) as [|c t] eqn:E; [done|].
  rewrite <- E, parse_acc_fixed_digits by done; f_equal; lia.
Qed.

Lemma parse_decimal_fixed_text k r (s : bool) :
  0 <= r ->
  parse_decimal (sign_text s +:+ fixed_text (S k) r)
  = Some (Qmake (if s then - r else r) (Z.to_pos (10 ^ Z.of_nat (S k)))).
Proof.
  intros Hr.
  assert (P : 0 < 10 ^ Z.of_nat (S k)) by (apply Z.pow_pos_nonneg; lia).
  assert (Hs : strip_minus (sign_text s +:+ fixed_text (S k) r)
               = (s, fixed_text (S k) r)).
  { destruct s; cbn [sign_text]; [reflexivity|].
    rewrite append_nil_l. unfold fixed_text.
    rewrite strip_minus_digits;
      [done | apply of_Z_nonneg_digits | apply of_Z_nonneg_nonempty]. }
  unfold parse_decimal. rewrite Hs. cbn [fst snd]. unfold fixed_text.
  rewrite split_dot_digits by apply of_Z_nonneg_digits.
  rewrite parse_nonneg_of_Z by (apply Z.div_pos; lia).
  rewrite parse_nonneg_fixed_digits by done.
  rewrite fixed_digits_length. cbn zeta.
  pose proof (Z.div_mod r (10 ^ Z.of_nat (S k)) ltac:(lia)) as E.
  replace (r / 10 ^ Z.of_nat (S k) * 10 ^ Z.of_nat (S k)
           + r mod 10 ^ Z.of_nat (S k)) with r by lia.
  done.
Qed.

Lemma scaled_round_nonneg k m e : 0 <= scaled_round k m e.
Proof.
  unfold scaled_round.
  assert (T : 0 < 10 ^ Z.of_nat k) by (apply Z.pow_pos_nonneg; lia).
  destruct (Z.leb_spec 0 e).
  - assert (0 < 2 ^ e) by (apply Z.pow_pos_nonneg; lia). nia.
  - apply round_half_even_nonneg; [apply Z.pow_pos_nonneg; lia | nia].
Qed.

Lemma parse_decimal_format k x :
  is_finite x = true ->
  parse_decimal (format_float_f (S k) x)
  = Some (Qmake (shown (S k) x) (Z.to_pos (10 ^ Z.of_nat (S k)))).
Proof.
  destruct x as [s|s| |s m e]; try done; intros _; unfold format_float_f.
  - rewrite parse_decimal_fixed_text by lia. by destruct s.
  - rewrite parse_decimal_fixed_text by apply scaled_round_nonneg. done.
Qed.

(** ** Splitting the report into lines and cells *)

Lemma no_char_app c a b : no_char c (a +:+ b) = no_char c a && no_char c b.
Proof.
  induction a as [|x a IH]; [done|].
  rewrite append_cons. simpl. by rewrite IH, andb_assoc.
Qed.

Lemma no_char_digits c s :
  is_digit c = false -> all_digits s = true -> no_char c s = true.
Proof.
  intros Hc. induction s as [|x s IH]; [done|]. simpl.
  intros [Hx Hs]%andb_true_iff. rewrite IH, andb_true_r by done.
  destruct (Ascii.eqb_spec x c) as [->|_]; [congruence | done].
Qed.

Lemma no_char_format c k x :
  is_digit c = false -> c <> "-"%char -> c <> "."%char ->
  is_finite x = true ->
  no_char c (format_float_f (S k) x) = true.
Proof.
  intros Hd Hm Hp Hx.
  assert (Hsign : forall s, no_char c (sign_text s) = true).
  { intros [|]; [|done]. cbn [sign_text no_char].
    destruct (Ascii.eqb_spec "-" c) as [<-|_]; done. }
  assert (Hbody : forall r, no_char c (fixed_text (S k) r) = true).
  { intros r. unfold fixed_text.
    rewrite no_char_app, (no_char_digits c _ Hd (of_Z_nonneg_digits _)).
    cbn [no_char]. rewrite (no_char_digits c _ Hd (fixed_digits_digits _ _)).
    destruct (Ascii.eqb_spec "." c) as [<-|_]; done. }
  destruct x as [s|s| |s m e]; try done; unfold format_float_f;
    by rewrite no_char_app, Hsign, Hbody.
Qed.

Lemma split_on_sep sep s : split_on sep (String sep s) = "" :: split_on sep s.
Proof. simpl. by rewrite Ascii.eqb_refl. Qed.

Lemma split_on_nonempty sep s : split_on sep s <> [].
Proof.
  destruct s as [|c s]; [done|]. simpl.
  destruct (Ascii.eqb c sep); [done|]. by destruct (split_on sep s).
Qed.

Lemma split_on_app sep a b :
  no_char sep a = true ->
  split_on sep (a +:+ String sep b) = a :: split_on sep b.
Proof.
  induction a as [|c a IH]; intros Ha.
  - rewrite append_nil_l. apply split_on_sep.
  - rewrite append_cons. simpl in Ha.
    apply andb_true_iff in Ha as [Hc Ha]. apply negb_true_iff in Hc.
    cbn [split_on]. by rewrite Hc, IH.
Qed.

Lemma rstrip_app_space a :
  no_char " " a = true -> rstrip (a +:+ " ") = a.
Proof.
  induction a as [|c a IH]; intros Ha; [done|].
  rewrite append_cons. simpl in Ha.
  apply andb_true_iff in Ha as [Hc Ha]. apply negb_true_iff in Hc.
  cbn [rstrip]. rewrite IH by done.
  destruct a; [by rewrite Hc | done].
Qed.

Lemma line_text_body repr coin profit dd trades stuck bags :
  line_text repr coin profit dd trades stuck bags
  = line_body repr coin profit dd trades stuck bags +:+ String newline "".
Proof. unfold line_text, line_body. by rewrite !append_assoc. Qed.

Lemma line_body_bars repr coin profit dd trades stuck bags :
  exists rest,
    line_body repr coin profit dd trades stuck bags
    = String "|" ((" " +:+ coin +:+ " ")
        +:+ String "|" ((" $" +:+ format_float_f 2 (to_float profit) +:+ " ")
        +:+ String "|" rest)).
Proof.
  eexists. unfold line_body. rewrite !append_assoc. reflexivity.
Qed.

Lemma profit_cell_line_body repr coin profit dd trades stuck bags :
  no_char "|" coin = true ->
  is_finite (to_float profit) = true ->
  profit_cell (line_body repr coin profit dd trades stuck bags)
  = Some (Qmake (shown 2 (to_float profit)) 100).
Proof.
  intros Hcoin Hfin.
  destruct (line_body_bars repr coin profit dd trades stuck bags)
    as [rest ->].
  assert (Hbar : is_digit "|" = false) by reflexivity.
  assert (Hsp : is_digit " " = false) by reflexivity.
  unfold profit_cell.
  rewrite split_on_sep, split_on_app, split_on_app.
  - cbn [lookup list_lookup].
    assert (Ht : trim (" $" +:+ format_float_f 2 (to_float profit) +:+ " ")
                 = String "$" (format_float_f 2 (to_float profit))).
    { unfold trim. change (lstrip (" $" +:+ ?t)) with ("$" +:+ t).
      rewrite <- append_assoc.
      rewrite (rstrip_app_space ("$" +:+ format_float_f 2 (to_float profit)));
        [done|].
      rewrite no_char_app. by rewrite no_char_format. }
    rewrite Ht. cbn [strip_dollar].
    by rewrite parse_decimal_format.
  - rewrite !no_char_app. by rewrite no_char_format.
  - rewrite !no_char_app. by rewrite Hcoin.
Qed.

Lemma join_cons l ls : join (l :: ls) = l +:+ join ls.
Proof. done. Qed.

Lemma split_on_join_lines bodies :
  Forall (fun b => no_char newline b = true) bodies ->
  split_on newline (join ((fun b => b +:+ String newline "") <$> bodies))
  = bodies ++ [""].
Proof.
  induction 1 as [|b bodies Hb _ IH]; [done|].
  rewrite fmap_cons, join_cons, append_assoc.
  change (String newline "" +:+ ?t) with (String newline t).
  by rewrite split_on_app, IH.
Qed.

Lemma data_lines_report bodies :
  Forall (fun b => no_char newline b = true /\ b <> "") bodies ->
  data_lines (join heading_lines
              +:+ join ((fun b => b +:+ String newline "") <$> bodies))
  = bodies.
Proof.
  intros Hb. unfold data_lines.
  set (rest := join (_ <$> bodies)).
  change (join heading_lines +:+ rest)
    with ("# Full Simulation Results (90 Days)"
          +:+ String newline
              ("**Strategy**: Buy Dip (Standard Dynamic Spacing)"
          +:+ String newline ("" +:+ String newline
              ("| COIN | PROFIT ($) | MAX DD (%) | TRADES | STUCK (Days) | BAGS |"
          +:+ String newline
              ("| :--- | :--- | :--- | :--- | :--- | :--- |"
          +:+ String newline rest))))).
  rewrite !split_on_app by reflexivity. cbn [drop].
  unfold rest. rewrite split_on_join_lines.
  2:{ eapply Forall_impl; [exact Hb|]. by intros b [? _]. }
  rewrite drop_0.
  induction Hb as [|b bodies [_ Hne] _ IH]; [done|].
  cbn [app List.filter]. destruct b; [done|]. by rewrite IH.
Qed.

(** ** The profits read back never increase *)

Lemma shown_scalar_mono k v1 v2 q1 q2 :
  same_kind v1 v2 = true ->
  scalar_Q v1 = Some q1 -> scalar_Q v2 = Some q2 -> (q1 <= q2)%Q ->
  shown k (to_float v1) <= shown k (to_float v2).
Proof.
  destruct v1 as [z1|f1|t1], v2 as [z2|f2|t2]; try done; intros _; simpl.
  - intros [= <-] [= <-] Hle. apply shown_int_mono.
    unfold Qle in Hle. simpl in Hle. lia.
  - intros H1 H2 Hle. by eapply shown_mono.
Qed.

Lemma shown_profit_descending vs qs :
  (forall v1 v2, v1 ∈ vs -> v2 ∈ vs -> same_kind v1 v2 = true) ->
  Forall2 (fun v q => scalar_Q v = Some q) vs qs ->
  descending qs ->
  descending (shown_profit <$> vs).
Proof.
  intros Hkind H2. induction H2 as [|v q vs qs Hv H2 IH]; intros Hd.
  - constructor.
  - apply StronglySorted_inv in Hd as [Hd Hall].
    rewrite fmap_cons. constructor.
    + apply IH; [|done]. intros v1 v2 H1 H2'. apply Hkind; by right.
    + apply Forall_fmap, Forall_forall. intros v' Hv'.
      destruct (list_elem_of_lookup_1 _ _ Hv') as [j Hj].
      destruct (Forall2_lookup_l _ _ _ _ _ H2 Hj) as (q' & Hq' & Hvq').
      rewrite List.Forall_forall in Hall.
      assert (Hle : (q' <= q)%Q).
      { apply Hall, list_elem_of_In. by eapply list_elem_of_lookup_2. }
      unfold shown_profit, Qle. simpl.
      apply Z.mul_le_mono_nonneg_r; [lia|].
      apply (shown_scalar_mono 2 v' v q' q); try done.
      apply Hkind; [by right | by left].
Qed.

Lemma cell_in_col_scalars c i v :
  cell object c i = Some v -> v ∈ col_scalars c.
Proof.
  destruct c as [l|l|l]; simpl; intros H.
  - destruct (l !! i) as [z|] eqn:E; [|done]. injection H as <-.
    apply list_elem_of_fmap. exists z. split; [done|].
    by eapply list_elem_of_lookup_2.
  - destruct (l !! i) as [f|] eqn:E; [|done]. injection H as <-.
    apply list_elem_of_fmap. exists f. split; [done|].
    by eapply list_elem_of_lookup_2.
  - by eapply list_elem_of_lookup_2.
Qed.

Lemma col_scalars_same_kind c qs v1 v2 :
  col_values c = Some qs ->
  v1 ∈ col_scalars c -> v2 ∈ col_scalars c -> same_kind v1 v2 = true.
Proof.
  destruct c as [l|l|l]; simpl; [| |done]; intros _ H1 H2;
    apply list_elem_of_fmap in H1 as (x1 & -> & _);
    apply list_elem_of_fmap in H2 as (x2 & -> & _); done.
Qed.

Lemma row_field_in_column df name c i v :
  valid_frame df = true ->
  lookup_col name (columns df) = Some c ->
  (i < nrows df)%nat ->
  row_get name (row_at df i) = inr v ->
  cell object c i = Some v /\ v ∈ col_scalars c.
Proof.
  intros Hv Hlook Hi Hget.
  destruct (row_get_valid df name c i Hv Hlook Hi) as (v' & Hcell & Hget').
  rewrite Hget in Hget'. injection Hget' as ->.
  split; [done | by eapply cell_in_col_scalars].
Qed.

Lemma row_field_plain df (P : Scalar -> bool) name i v :
  valid_frame df = true ->
  has_col (fun c => forallb P (col_scalars c)) name df = true ->
  (i < nrows df)%nat ->
  row_get name (row_at df i) = inr v ->
  P v = true.
Proof.
  intros Hv Hcol Hi Hget.
  destruct (has_col_Some _ _ _ Hcol) as (c & Hlook & Hall).
  destruct (row_field_in_column df name c i v Hv Hlook Hi Hget) as [_ Hin].
  rewrite forallb_forall in Hall. by apply Hall, list_elem_of_In.
Qed.

Lemma renders_reads_back repr df key i l :
  valid_frame df = true ->
  plain_cells repr df = true ->
  lookup_col "PROFIT_USDT" (columns df) = Some key ->
  (i < nrows df)%nat ->
  renders repr df i l ->
  exists body v,
    l = body +:+ String newline ""
    /\ (no_char newline body = true /\ body <> "")
    /\ cell object key i = Some v
    /\ profit_cell body = Some (shown_profit v).
Proof.
  intros Hv Hplain Hkey Hi
    (coin & profit & dd & trades & stuck & bags & HF & ->).
  unfold plain_cells in Hplain. rewrite !andb_true_iff in Hplain.
  destruct Hplain as ((Pc & Pt) & Pb).
  pose proof HF as [G1 G2 N2 G3 N3 G4 G5 N5 G6].
  pose proof (row_field_plain df _ _ i _ Hv Pc Hi G1) as Hcoin.
  apply andb_true_iff in Hcoin as [Hbar Hnl]. simpl in Hbar, Hnl.
  pose proof (row_field_plain df _ _ i _ Hv Pt Hi G4) as Htr.
  pose proof (row_field_plain df _ _ i _ Hv Pb Hi G6) as Hbg.
  destruct (row_field_in_column df _ key i profit Hv Hkey Hi G2) as [Hcell _].
  assert (Hfmt : forall k v, is_Some (scalar_Q v) ->
             no_char newline (format_float_f (S k) (to_float v)) = true).
  { intros k v Hn. apply no_char_format; try done.
    by apply to_float_finite. }
  exists (line_body repr coin profit dd trades stuck bags), profit.
  split; [apply line_text_body|]. split; [split|split; [done|] ].
  - unfold line_body. rewrite !no_char_app.
    by rewrite Hnl, !Hfmt, Htr, Hbg.
  - destruct (line_body_bars repr coin profit dd trades stuck bags)
      as [rest ->]. done.
  - apply profit_cell_line_body; [done | by apply to_float_finite].
Qed.

Lemma lines_read_back repr df key idx lines :
  valid_frame df = true ->
  plain_cells repr df = true ->
  lookup_col "PROFIT_USDT" (columns df) = Some key ->
  Forall (fun i => (i < nrows df)%nat) idx ->
  Forall2 (renders repr df) idx lines ->
  exists bodies vs,
    lines = (fun b => b +:+ String newline "") <$> bodies
    /\ Forall (fun b => no_char newline b = true /\ b <> "") bodies
    /\ Forall2 (fun i v => cell object key i = Some v) idx vs
    /\ Forall2 (fun b q => profit_cell b = Some q) bodies (shown_profit <$> vs).
Proof.
  intros Hv Hplain Hkey Hidx H2. revert Hidx.
  induction H2 as [|i l idx lines Hr _ IH]; intros Hidx.
  - exists [], []. repeat split; constructor.
  - apply Forall_cons in Hidx as [Hi Hidx].
    destruct (IH Hidx) as (bodies & vs & -> & Hb & Hc & Hp).
    destruct (renders_reads_back repr df key i l Hv Hplain Hkey Hi Hr)
      as (body & v & -> & Hbody & Hcell & Hpc).
    exists (body :: bodies), (v :: vs).
    split; [done|]. split; [by constructor|].
    split; [by constructor|]. rewrite fmap_cons. by constructor.
Qed.

Lemma cells_values key qs idx vs :
  col_values key = Some qs ->
  Forall2 (fun i v => cell object key i = Some v) idx vs ->
  Forall2 (fun v q => scalar_Q v = Some q) vs (take_list idx qs)
  /\ Forall (fun v => v ∈ col_scalars key) vs.
Proof.
  intros Hqs. induction 1 as [|i v idx vs Hc _ [IH1 IH2] ].
  - split; constructor.
  - rewrite take_list_cons.
    destruct (cell_numeric key qs i v Hqs Hc) as [E [q Hq] ].
    rewrite <- E, Hq. split; constructor; try done.
    by eapply cell_in_col_scalars.
Qed.

(** ** The table rows of a report without line breaks *)








(** ** The cells of a row *)

Lemma shown_error k x :
  2 * Z.abs (shown k x * fden x - fnum x * 10 ^ Z.of_nat k) <= fden x.
Proof.
  rewrite shown_fraction.
  pose proof (fden_pos x) as D.
  destruct (Z.ltb_spec (fnum x) 0) as [N|N].
  - destruct (round_half_even_spec (- fnum x * 10 ^ Z.of_nat k) (fden x) D)
      as [B _]. cbn zeta in B. lia.
  - destruct (round_half_even_spec (fnum x * 10 ^ Z.of_nat k) (fden x) D)
      as [B _]. cbn zeta in B. lia.
Qed.

Lemma shown_nearest k x q :
  float_Q x = Some q ->
  (Qabs (Qmake (shown k x) (Z.to_pos (10 ^ Z.of_nat k)) - q)
   <= 1 # (2 * Z.to_pos (10 ^ Z.of_nat k)))%Q.
Proof.
  intros Hq. rewrite (float_Q_fraction x q Hq).
  pose proof (shown_error k x) as E.
  pose proof (fden_pos x) as D.
  assert (T : 0 < 10 ^ Z.of_nat k) by (apply Z.pow_pos_nonneg; lia).
  set (t := 10 ^ Z.of_nat k) in *.
  set (a := shown k x) in *. set (n := fnum x) in *.
  set (d := fden x) in *.
  apply Qabs_Qle_condition.
  unfold Qle, Qminus, Qplus, Qopp; simpl.
  rewrite !Pos2Z.inj_mul, !Z2Pos.id by lia.
  split; nia.
Qed.

Lemma finite_has_value x : is_finite x = true -> is_Some (float_Q x).
Proof. destruct x; simpl; try done; eauto. Qed.

Lemma format_shows_fixed k v :
  is_Some (scalar_Q v) ->
  shows_fixed (S k) v (format_float_f (S k) (to_float v)).
Proof.
  intros Hn. pose proof (to_float_finite v Hn) as Hfin.
  destruct (finite_has_value _ Hfin) as [q Hq].
  split; [by apply format_float_f_fixed|].
  eexists _, q. split; [by apply parse_decimal_format|].
  split; [done | by apply shown_nearest].
Qed.

Lemma pow2_neg_pos e : e < 0 -> 0 < 2 ^ (- e).
Proof. intros He. apply Z.pow_pos_nonneg; lia. Qed.

Lemma integral_value_spec m e :
  is_integral m e = true ->
  (finite_Q false m e == inject_Z (integral_value m e))%Q.
Proof.
  unfold is_integral, integral_value, finite_Q.
  destruct (Z.leb_spec 0 e) as [He|He]; [reflexivity|].
  cbn [orb]. intros Hm%Z.eqb_eq.
  pose proof (pow2_neg_pos e He) as D.
  unfold Qeq; simpl. rewrite Z2Pos.id by done.
  pose proof (Z.div_mod (Z.pos m) (2 ^ (- e)) ltac:(lia)). lia.
Qed.

Lemma integral_is_integral m e n :
  (finite_Q false m e == inject_Z n)%Q ->
  is_integral m e = true /\ integral_value m e = n.
Proof.
  unfold is_integral, integral_value, finite_Q.
  destruct (Z.leb_spec 0 e) as [He|He].
  - unfold Qeq; simpl. lia.
  - cbn [orb]. pose proof (pow2_neg_pos e He) as D.
    unfold Qeq; simpl. rewrite Z2Pos.id by done. intros H.
    rewrite Z.mul_1_r in H. rewrite H.
    rewrite Z.mod_mul, Z.div_mul by lia. done.
Qed.

Lemma py_str_as_is repr v :
  float_reads_back repr v = true -> shown_as_is repr v (py_str repr v).
Proof.
  destruct v as [z|x|t]; [constructor| |constructor].
  destruct x as [s|s| |s m e]; try (intros _; constructor).
  simpl. intros Hback.
  destruct (is_integral m e) eqn:Hi; cbn [andb].
  - destruct (Z.ltb_spec (integral_value m e) (10 ^ 16)) as [Hl|Hl].
    + apply as_is_whole; [by apply integral_value_spec | done].
    + apply as_is_digits; [|done].
      intros n Hn. by destruct (integral_is_integral m e n Hn) as [_ <-].
  - apply as_is_digits; [|done].
    intros n Hn. destruct (integral_is_integral m e n Hn) as [Hi' _].
    congruence.
Qed.

Lemma renders_cells_formatted repr df i l :
  valid_frame df = true ->
  repr_round_trips repr df = true ->
  (i < nrows df)%nat ->
  renders repr df i l -> cells_formatted repr df i l.
Proof.
  intros Hv Hrepr Hi (coin & profit & dd & trades & stuck & bags & HF & ->).
  unfold repr_round_trips in Hrepr. apply andb_true_iff in Hrepr as [Rt Rb].
  pose proof HF as [_ _ N2 _ N3 G4 _ N5 G6].
  pose proof (row_field_plain df _ _ i _ Hv Rt Hi G4) as Htr.
  pose proof (row_field_plain df _ _ i _ Hv Rb Hi G6) as Hbg.
  exists coin, profit, dd, trades, stuck, bags,
    (format_float_f 2 (to_float profit)), (format_float_f 2 (to_float dd)),
    (py_str repr trades), (format_float_f 1 (to_float stuck)),
    (py_str repr bags).
  split; [exact HF|].
  split; [reflexivity|].
  split; [by apply format_shows_fixed|].
  split; [by apply format_shows_fixed|].
  split; [by apply py_str_as_is|].
  split; [by apply format_shows_fixed | by apply py_str_as_is].
Qed.

Lemma lines_cells_formatted repr df idx lines :
  valid_frame df = true ->
  repr_round_trips repr df = true ->
  Forall (fun i => (i < nrows df)%nat) idx ->
  Forall2 (renders repr df) idx lines ->
  Forall2 (cells_formatted repr df) idx lines.
Proof.
  intros Hv Hrepr Hidx H2. revert Hidx.
  induction H2 as [|i l idx lines Hr _ IH]; intros Hidx; [constructor|].
  apply Forall_cons in Hidx as [Hi Hidx].
  constructor; [by apply renders_cells_formatted | by apply IH].
Qed.

(** * The claims *)

Lemma render_rows_stop repr pre row post lines e :
  Forall2 (fun r l => row_line repr r = inr l) pre lines ->
  row_line repr row = inl e ->
  render_rows repr (pre ++ row :: post) = (lines, Some e).
Proof.
  intros Hpre Hrow. induction Hpre as [|r l pre lines Hr _ IH].
  - simpl. by rewrite Hrow.
  - simpl. by rewrite Hr, IH.
Qed.

Lemma files_print s w : files (print s w) = files w.
Proof. done. Qed.

Lemma console_print s w : console (print s w) = (console w ++ [s])%list.
Proof. done. Qed.

Lemma files_set_file path c w : files (set_file path c w) !! path = Some c.
Proof. unfold set_file; simpl. apply lookup_insert_eq. Qed.

Lemma console_set_file path c w : console (set_file path c w) = console w.
Proof. done. Qed.

Lemma sample_writable csv_text : md_path ∉ unwritable (world_with csv_text).
Proof. apply not_elem_of_empty. Qed.

Section Claims.

Variable repr_shortest : spec_float -> string.
Variable read_csv : string -> gmap string string -> Exception + DataFrame.
Variable argsort_desc : Column -> list nat.

Local Abbreviation run := (csv_to_md repr_shortest read_csv argsort_desc).
Local Abbreviation body := (try_block repr_shortest read_csv argsort_desc).

Lemma try_block_console csv_file md_file w :
  match body csv_file md_file w with
  | (w', inl _) => console w' = console w
  | (w', inr _) => exists n,
      console w' = (console w ++ [success_message n md_file])%list
  end.
Proof.
  unfold try_block, sort_values.
  unfold mbind, M_bind. unfold bind at 1.
  destruct (read_csv csv_file (files w)) as [e|df]; [done|].
  unfold bind at 1, lift.
  destruct (lookup_col "PROFIT_USDT" (columns df)) as [key|]; [|done].
  unfold ret. unfold bind at 1, open_w.
  destruct (decide (md_file ∈ unwritable w)) as [Hro|Hrw]; [done|].
  change {| files := <[md_file:=""]> (files w);
            unwritable := unwritable w; console := console w |}
    with (set_file md_file "" w).
  unfold bind at 1. rewrite f_write_set_file.
  unfold bind at 1. rewrite f_write_set_file.
  unfold bind at 1. rewrite f_write_set_file.
  unfold bind at 1. rewrite f_write_set_file.
  unfold bind. rewrite write_rows_spec.
  destruct (render_rows repr_shortest _) as [ls [e|]]; cbn [fst snd]; [done|].
  unfold print_m. eexists. reflexivity.
Qed.

(** C5.  Whatever happens inside the [try] -- the input cannot be
    read, a column is absent, a value cannot be formatted, the output
    cannot be opened -- the call returns normally with exactly one more
    console line: the text of the exception after "Error: " when the
    body raised, the success message when it did not.  Nothing is
    raised to the caller in either case. *)
Theorem every_failure_is_printed csv_file md_file w :
  match body csv_file md_file w with
  | (_, inl e) =>
      console (run csv_file md_file w)
      = (console w ++ ["Error: " +:+ exception_str e])%list
  | (_, inr _) =>
      exists n, console (run csv_file md_file w)
                = (console w ++ [success_message n md_file])%list
  end.
Proof.
  pose proof (try_block_console csv_file md_file w) as H.
  unfold csv_to_md.
  destruct (body csv_file md_file w) as [w' [e|[]]].
  - by rewrite console_print, H.
  - done.
Qed.

(** C6.  When the file parses but has no PROFIT_USDT column, the run
    prints the KeyError and touches no file: the output path is not
    opened, so whatever was there stays as it was. *)
Theorem missing_profit_column_leaves_files csv_file md_file w df :
  read_csv csv_file (files w) = inr df ->
  lookup_col "PROFIT_USDT" (columns df) = None ->
  files (run csv_file md_file w) = files w
  /\ console (run csv_file md_file w)
     = (console w ++ ["Error: 'PROFIT_USDT'"])%list.
Proof.
  intros Hread Hmiss.
  rewrite csv_to_md_outcome. unfold run_outcome.
  by rewrite Hread, Hmiss.
Qed.

(** C10.  The output file is opened, and so emptied, before the first
    row is formatted.  If the sort succeeds, the path is writable and
    row [k] of the sorted frame is the first whose formatting raises,
    the run prints that error and leaves a file holding the header
    block followed by exactly the [k] rows before it. *)
Theorem formatting_error_leaves_partial_file
    csv_file md_file w df key pre row post lines e :
  read_csv csv_file (files w) = inr df ->
  lookup_col "PROFIT_USDT" (columns df) = Some key ->
  md_file ∉ unwritable w ->
  iterrows (take_rows (argsort_desc key) df) = pre ++ row :: post ->
  Forall2 (fun r l => row_line repr_shortest r = inr l) pre lines ->
  row_line repr_shortest row = inl e ->
  files (run csv_file md_file w) !! md_file
  = Some (header_block +:+ join lines)
  /\ length lines = length pre
  /\ console (run csv_file md_file w)
     = (console w ++ ["Error: " +:+ exception_str e])%list.
Proof.
  intros Hread Hkey Hw Hrows Hpre Hrow.
  rewrite csv_to_md_outcome. unfold run_outcome.
  rewrite Hread, Hkey, decide_False by done.
  rewrite Hrows, (render_rows_stop _ _ _ _ _ _ Hpre Hrow).
  rewrite files_print, files_set_file, console_print.
  repeat split. symmetry. by eapply Forall2_length.
Qed.

Hypothesis sort_ok : sort_contract argsort_desc.






(** C7.  A file with the header line only -- the six columns present,
    no data row -- is a success: the output holds the five heading
    lines and nothing else, and the console reports 0 rows and the
    output path. *)
Theorem header_only_input csv_file md_file w df :
  read_csv csv_file (files w) = inr df ->
  nrows df = 0%nat ->
  wf_frame_b df = true ->
  forallb (fun name => has_col (fun _ => true) name df)
    ["COIN"; "PROFIT_USDT"; "MAX_DRAWDOWN_PCT"; "TRADES"; "STUCK_DAYS";
     "END_POSITIONS"] = true ->
  md_file ∉ unwritable w ->
  files (run csv_file md_file w) !! md_file = Some (join heading_lines)
  /\ console (run csv_file md_file w)
     = (console w ++ ["Successfully wrote 0 rows to " +:+ md_file])%list.
Proof.
  intros Hread Hn Hwf Hcols Hw.
  simpl in Hcols. rewrite !andb_true_iff in Hcols.
  destruct Hcols as (_ & Hp & _).
  destruct (has_col_Some _ _ _ Hp) as (key & Hlook & _).
  destruct (lookup_col_In _ _ _ Hlook) as [n Hin].
  pose proof (wf_frame_col_len df n key Hwf Hin) as Hlen.
  assert (Hidx : argsort_desc key = []).
  { apply length_zero_iff_nil.
    by rewrite (argsort_length _ key sort_ok), Hlen. }
  rewrite csv_to_md_outcome. unfold run_outcome.
  rewrite Hread, Hlook, decide_False, Hidx by done.
  unfold iterrows, take_rows. cbn [nrows length seq map render_rows].
  rewrite files_print, files_set_file, console_print.
  split; reflexivity.
Qed.

Lemma row_get_wf df name i :
  wf_frame_b df = true -> (i < nrows df)%nat ->
  row_get name (row_at df i)
  = match lookup_col name (columns df) with
    | Some c =>
        match cell (common_dtype (columns df)) c i with
        | Some v => inr v
        | None => inl (KeyError name)
        end
    | None => inl (KeyError name)
    end.
Proof.
  intros Hwf Hi. unfold row_at.
  destruct (lookup_col name (columns df)) as [c|] eqn:Hlook.
  - destruct (row_get_cells (common_dtype (columns df)) (columns df) name i c)
      as (v & Hv & Hget); [|done|by rewrite Hv].
    intros [n c0] Hin. simpl. by rewrite (wf_frame_col_len df n c0 Hwf Hin).
  - by apply row_get_missing.
Qed.




(** C2.  On valid input every data line shows its record cell by cell:
    COIN as it is; PROFIT_USDT after a dollar sign, with exactly two
    decimals; MAX_DRAWDOWN_PCT with exactly two decimals, before a
    percent sign; TRADES as it is, with no decimals forced on it;
    STUCK_DAYS with exactly one decimal; END_POSITIONS as it is.  The
    formatted texts denote the nearest number with that many decimals.
    A float in TRADES or END_POSITIONS that is not a whole number is
    printed by [repr], of which the theorem asks what Python documents:
    that its text reads back as the float.  For the three records with
    profits 10.5, -2.333 and 100 the profit cells read $100.00, $10.50
    and $-2.33, in that order, and the integer 3 in STUCK_DAYS reads
    3.0. *)
Theorem cells_follow_the_format :
  (forall csv_file md_file w df,
      read_csv csv_file (files w) = inr df ->
      valid_frame df = true ->
      repr_round_trips repr_shortest df = true ->
      md_file ∉ unwritable w ->
      exists idx lines,
        idx ≡ₚ seq 0 (nrows df)
        /\ Forall2 (cells_formatted repr_shortest df) idx lines
        /\ files (run csv_file md_file w) !! md_file
           = Some (header_block +:+ join lines))
  /\ files (csv_to_md sample_repr (table_read_csv sample_table) argsort_desc
              csv_path md_path (world_with scenario_a_text)) !! md_path
     = Some (join heading_lines
             +:+ "| CCC | $100.00 | 0.00% | 31 | 12.0 | 1 |
| AAA | $10.50 | 12.25% | 14 | 3.0 | 0 |
| BBB | $-2.33 | 7.50% | 9 | 0.0 | 2 |
")
  /\ format_f 1 (SInt 3) = inr "3.0".
Proof.
  split; [|split; [|reflexivity] ].
  - intros csv_file md_file w df Hread Hv Hrepr Hw.
    destruct (valid_run repr_shortest read_csv argsort_desc sort_ok
                csv_file md_file w df Hread Hv Hw)
      as (key & lines & Hlook & Hlines & Hrun).
    destruct (valid_frame_profit_key df Hv)
      as (key' & qs & Hlook' & _ & Hlen & _).
    rewrite Hlook in Hlook'. injection Hlook' as <-.
    pose proof (argsort_perm _ key _ sort_ok Hlen) as Hperm.
    exists (argsort_desc key), lines.
    rewrite Hrun, files_print, files_set_file.
    split; [done|]. split; [|done].
    apply lines_cells_formatted; try done.
    by apply perm_seq_in_range.
  - rewrite csv_to_md_outcome. unfold run_outcome.
    assert (Hread : table_read_csv sample_table csv_path
                      (files (world_with scenario_a_text))
                    = inr scenario_a_frame) by (vm_compute; reflexivity).
    rewrite Hread.
    assert (Hkey : lookup_col "PROFIT_USDT" (columns scenario_a_frame)
                   = Some (ColFloat [f_10_5; f_m2_333; f_100]))
      by reflexivity.
    rewrite Hkey, decide_False by apply sample_writable.
    rewrite (scenario_a_order _ sort_ok).
    vm_compute. reflexivity.
Qed.

(** C8, as far as the code goes.  On valid input in which no coin
    name holds a bar or a line break and no TRADES or END_POSITIONS cell
    prints with a line break, reading the report back -- its lines after
    the five heading lines, their second cell, the dollar sign dropped --
    gives one number per input row, and the numbers never increase. *)
Theorem profits_read_back_never_increase csv_file md_file w df :
  read_csv csv_file (files w) = inr df ->
  valid_frame df = true ->
  plain_cells repr_shortest df = true ->
  md_file ∉ unwritable w ->
  exists ps,
    report_profits (run csv_file md_file w) md_file = Some ps
    /\ length ps = nrows df
    /\ descending ps.
Proof.
  intros Hread Hv Hplain Hw.
  destruct (valid_run repr_shortest read_csv argsort_desc sort_ok
              csv_file md_file w df Hread Hv Hw)
    as (key & lines & Hlook & Hlines & Hrun).
  destruct (valid_frame_profit_key df Hv)
    as (key' & qs & Hlook' & Hqs & Hlen & Hlenq).
  rewrite Hlook in Hlook'. injection Hlook' as <-.
  assert (Hidx : Forall (fun i => (i < nrows df)%nat) (argsort_desc key)).
  { rewrite <- Hlen. by apply argsort_in_range. }
  destruct (lines_read_back repr_shortest df key _ lines Hv Hplain Hlook
              Hidx Hlines) as (bodies & vs & -> & Hb & Hc & Hp).
  destruct (cells_values key qs _ vs Hqs Hc) as [Hvals Hin].
  exists (shown_profit <$> vs).
  unfold report_profits. rewrite Hrun, files_print, files_set_file.
  unfold profit_column.
  change header_block with (join heading_lines).
  rewrite data_lines_report by done.
  split; [by apply mapM_Some_2|]. split.
  - rewrite length_fmap, <- (Forall2_length _ _ _ Hc).
    by rewrite (argsort_length _ key sort_ok).
  - apply (shown_profit_descending vs (take_list (argsort_desc key) qs));
      [|done|by apply sort_ok].
    intros v1 v2 H1 H2. rewrite Forall_forall in Hin.
    eapply col_scalars_same_kind; eauto.
Qed.

End Claims.

(** * The claims on the sample inputs *)

Lemma every_failure_is_printed_scenario_b :
  console (sample_run scenario_b_text) = ["Error: 'PROFIT_USDT'"].
Proof.
  exact (every_failure_is_printed sample_repr (table_read_csv sample_table)
           stable_argsort_desc csv_path md_path (world_with scenario_b_text)).
Defined.

Lemma missing_profit_column_witness :
  table_read_csv sample_table csv_path (files (world_with scenario_b_text))
  = inr scenario_b_frame
  /\ lookup_col "PROFIT_USDT" (columns scenario_b_frame) = None
  /\ files (sample_run scenario_b_text) = files (world_with scenario_b_text)
  /\ console (sample_run scenario_b_text) = ["Error: 'PROFIT_USDT'"].
Proof.
  split; [vm_compute; reflexivity|]. split; [reflexivity|].
  apply (missing_profit_column_leaves_files sample_repr
           (table_read_csv sample_table) stable_argsort_desc csv_path md_path
           (world_with scenario_b_text) scenario_b_frame);
    [vm_compute; reflexivity | reflexivity].
Defined.

Lemma formatting_error_witness :
  files (sample_run bad_cell_text) !! md_path
  = Some (join heading_lines +:+ "| AAA | $2.00 | nan% | 14 | 3.0 | 0 |
")
  /\ length ["| AAA | $2.00 | nan% | 14 | 3.0 | 0 |
"] = length [row_at bad_cell_frame 0]
  /\ console (sample_run bad_cell_text)
     = ["Error: Unknown format code 'f' for object of type 'str'"].
Proof.
  apply (formatting_error_leaves_partial_file sample_repr
           (table_read_csv sample_table) stable_argsort_desc csv_path md_path
           (world_with bad_cell_text) bad_cell_frame (ColInt [2; 1])
           [row_at bad_cell_frame 0] (row_at bad_cell_frame 1) []
           ["| AAA | $2.00 | nan% | 14 | 3.0 | 0 |
"] (ValueError "Unknown format code 'f' for object of type 'str'")).
  - vm_compute; reflexivity.
  - reflexivity.
  - apply sample_writable.
  - vm_compute; reflexivity.
  - repeat constructor.
  - vm_compute; reflexivity.
Defined.




(** A valid frame of one record whose coin name runs over two lines,
    as a quoted field of the file may: the report has two table rows for
    the one input row, and the console says one row was written. *)
Lemma line_break_in_coin_adds_a_row :
  table_read_csv more_samples csv_path (files (world_with break_text))
  = inr break_frame
  /\ valid_frame break_frame = true
  /\ nrows break_frame = 1%nat
  /\ exists doc,
       files (more_run break_text) !! md_path = Some doc
       /\ doc = join heading_lines +:+ "| A
B | $5.00 | 1.00% | 1 | 1.0 | 0 |
"
       /\ data_lines doc = ["| A"; "B | $5.00 | 1.00% | 1 | 1.0 | 0 |"]
       /\ length (data_lines doc) <> nrows break_frame
       /\ console (more_run break_text)
          = ["Successfully wrote 1 rows to full_simulation_results.md"].
Proof.
  split; [vm_compute; reflexivity|].
  split; [vm_compute; reflexivity|].
  split; [reflexivity|].
  eexists. split; [vm_compute; reflexivity|].
  split; [vm_compute; reflexivity|].
  split; [vm_compute; reflexivity|].
  split; [vm_compute; discriminate | vm_compute; reflexivity].
Qed.

(** The same report, line by line.  Its second line has the word
    Strategy in bold, not the line as a whole; and of its two table rows
    the first does not close with a bar and the second does not open
    with one. *)
Lemma line_break_in_coin_breaks_the_row :
  valid_frame break_frame = true
  /\ exists doc,
       files (more_run break_text) !! md_path = Some doc
       /\ text_lines doc
          = ["# Full Simulation Results (90 Days)";
             "**Strategy**: Buy Dip (Standard Dynamic Spacing)";
             "";
             "| COIN | PROFIT ($) | MAX DD (%) | TRADES | STUCK (Days) | BAGS |";
             "| :--- | :--- | :--- | :--- | :--- | :--- |";
             "| A";
             "B | $5.00 | 1.00% | 1 | 1.0 | 0 |";
             ""]
       /\ text_lines doc !! 1%nat
          <> Some "**Strategy: Buy Dip (Standard Dynamic Spacing)**"
       /\ ~ Forall (fun r => exists cells, r = "| " +:+ cells +:+ " |")
             (data_lines doc).
Proof.
  split; [vm_compute; reflexivity|].
  eexists. split; [vm_compute; reflexivity|].
  split; [vm_compute; reflexivity|].
  split; [vm_compute; discriminate|].
  intros H. vm_compute in H.
  apply Forall_cons in H as [_ H].
  apply Forall_cons in H as [ [cells H] _].
  discriminate H.
Qed.

Lemma header_only_input_witness :
  files (sample_run scenario_c_text) !! md_path = Some (join heading_lines)
  /\ console (sample_run scenario_c_text)
     = ["Successfully wrote 0 rows to full_simulation_results.md"].
Proof.
  apply (header_only_input sample_repr (table_read_csv sample_table)
           stable_argsort_desc stable_argsort_desc_contract csv_path md_path
           (world_with scenario_c_text) scenario_c_frame).
  - vm_compute; reflexivity.
  - reflexivity.
  - reflexivity.
  - reflexivity.
  - apply sample_writable.
Defined.




Lemma cells_follow_the_format_witness :
  exists idx lines,
    idx ≡ₚ seq 0 2
    /\ Forall2 (cells_formatted sample_repr fraction_frame) idx lines
    /\ files (more_run fraction_text) !! md_path
       = Some (header_block +:+ join lines).
Proof.
  destruct (cells_follow_the_format sample_repr (table_read_csv more_samples)
              stable_argsort_desc stable_argsort_desc_contract) as [H _].
  apply (H csv_path md_path (world_with fraction_text) fraction_frame).
  - vm_compute; reflexivity.
  - vm_compute; reflexivity.
  - vm_compute; reflexivity.
  - apply sample_writable.
Defined.

Lemma profits_read_back_witness :
  exists ps,
    report_profits (sample_run scenario_a_text) md_path = Some ps
    /\ length ps = 3%nat
    /\ descending ps.
Proof.
  apply (profits_read_back_never_increase sample_repr
           (table_read_csv sample_table) stable_argsort_desc
           stable_argsort_desc_contract csv_path md_path
           (world_with scenario_a_text) scenario_a_frame).
  - vm_compute; reflexivity.
  - vm_compute; reflexivity.
  - vm_compute; reflexivity.
  - apply sample_writable.
Defined.

(** A valid frame whose first coin is named "X | $1.00": the report reads
    back as 1.00 then 2.00, although the profits written are 5.00 and
    2.00. *)
Lemma bar_in_coin_breaks_read_back :
  valid_frame bar_frame = true
  /\ files (sample_run bar_text) !! md_path
     = Some (join heading_lines
             +:+ "| X | $1.00 | $5.00 | 1.00% | 1 | 1.0 | 0 |
| BBB | $2.00 | 1.00% | 1 | 1.0 | 0 |
")
  /\ report_profits (sample_run bar_text) md_path
     = Some [Qmake 100 100; Qmake 200 100]
  /\ ~ descending [Qmake 100 100; Qmake 200 100].
Proof.
  split; [vm_compute; reflexivity|].
  split; [vm_compute; reflexivity|].
  split; [vm_compute; reflexivity|].
  intros H. apply descending_b_complete in H. vm_compute in H. discriminate H.
Qed.

(** * Further properties of the run *)

Lemma run_outcome_frame repr read_csv argsort csv_file md_file w path :
  path <> md_file ->
  files (run_outcome repr read_csv argsort csv_file md_file w) !! path
  = files w !! path.
Proof.
  intros Hne. unfold run_outcome.
  destruct (read_csv csv_file (files w)) as [e|df]; [done|].
  destruct (lookup_col "PROFIT_USDT" (columns df)) as [key|]; [|done].
  destruct (decide (md_file ∈ unwritable w)); [done|].
  destruct (render_rows repr _) as [ls [e|] ];
    rewrite files_print; unfold set_file; simpl;
    by rewrite lookup_insert_ne.
Qed.

Lemma run_outcome_unwritable repr read_csv argsort csv_file md_file w :
  unwritable (run_outcome repr read_csv argsort csv_file md_file w)
  = unwritable w.
Proof.
  unfold run_outcome.
  destruct (read_csv csv_file (files w)) as [e|df]; [done|].
  destruct (lookup_col "PROFIT_USDT" (columns df)) as [key|]; [|done].
  destruct (decide (md_file ∈ unwritable w)); [done|].
  by destruct (render_rows repr _) as [ls [e|] ].
Qed.

Lemma table_read_csv_reads_own_file table : reads_own_file (table_read_csv table).
Proof. intros path fs1 fs2 H. unfold table_read_csv. by rewrite H. Qed.

Section Run.

Variable repr_shortest : spec_float -> string.
Variable read_csv : string -> gmap string string -> Exception + DataFrame.
Variable argsort_desc : Column -> list nat.

Local Abbreviation run := (csv_to_md repr_shortest read_csv argsort_desc).

(** X1.  A run writes to the output path and to nothing else: every
    other file is as it was, whether the run succeeds or not, and the
    set of protected paths is untouched. *)
Theorem only_the_output_path_is_written csv_file md_file w path :
  path <> md_file ->
  files (csv_to_md repr_shortest read_csv argsort_desc csv_file md_file w)
    !! path = files w !! path
  /\ unwritable (csv_to_md repr_shortest read_csv argsort_desc
                   csv_file md_file w) = unwritable w.
Proof.
  intros Hne. rewrite csv_to_md_outcome. split.
  - by apply run_outcome_frame.
  - apply run_outcome_unwritable.
Qed.

(** X2.  The script itself never modifies its input: whatever happens,
    analysis_results_all.csv holds after the run what it held before. *)
Theorem main_keeps_its_input w :
  files (main repr_shortest read_csv argsort_desc w)
    !! "analysis_results_all.csv"
  = files w !! "analysis_results_all.csv".
Proof.
  unfold main. rewrite csv_to_md_outcome.
  apply run_outcome_frame. discriminate.
Qed.

(** X3.  A failure before the output is opened changes no file at all:
    when the input cannot be read, or has no PROFIT_USDT column, or the
    output path cannot be opened, an earlier report at the output path
    survives as it was. *)
Theorem early_failure_changes_no_file csv_file md_file w :
  (exists e, read_csv csv_file (files w) = inl e)
  \/ (exists df, read_csv csv_file (files w) = inr df
                 /\ lookup_col "PROFIT_USDT" (columns df) = None)
  \/ md_file ∈ unwritable w ->
  files (run csv_file md_file w) = files w
  /\ exists line, console (run csv_file md_file w)
                  = (console w ++ ["Error: " +:+ line])%list.
Proof.
  intros H. rewrite csv_to_md_outcome. unfold run_outcome.
  destruct (read_csv csv_file (files w)) as [e|df] eqn:Hread.
  { split; [done | by eexists]. }
  destruct (lookup_col "PROFIT_USDT" (columns df)) as [key|] eqn:Hkey.
  2:{ split; [done | by eexists]. }
  destruct H as [ [e He]|[(df' & Hdf & Hnone)|Hro] ].
  - discriminate He.
  - injection Hdf as <-. congruence.
  - rewrite decide_True by done. split; [done | by eexists].
Qed.

(** X4.  Once the output is opened its old content is gone: two runs
    that read the same frame leave the same report, whatever the output
    file held before -- also when a row then fails to format. *)
Theorem old_report_is_discarded csv_file md_file w1 w2 df key :
  read_csv csv_file (files w1) = inr df ->
  read_csv csv_file (files w2) = inr df ->
  lookup_col "PROFIT_USDT" (columns df) = Some key ->
  md_file ∉ unwritable w1 -> md_file ∉ unwritable w2 ->
  files (run csv_file md_file w1) !! md_file
  = files (run csv_file md_file w2) !! md_file
  /\ is_Some (files (run csv_file md_file w1) !! md_file).
Proof.
  intros H1 H2 Hkey Hw1 Hw2.
  rewrite !csv_to_md_outcome. unfold run_outcome.
  rewrite H1, H2, Hkey, !decide_False by done.
  destruct (render_rows repr_shortest _) as [ls [e|] ];
    rewrite !files_print, !files_set_file; eauto.
Qed.

(** X5.  Running twice gives what running once gives: if reading looks
    at the input file alone and the two paths differ, the second run
    leaves every file as the first run left it and prints the same line
    again. *)
Theorem second_run_changes_nothing csv_file md_file w :
  reads_own_file read_csv ->
  csv_file <> md_file ->
  files (run csv_file md_file (run csv_file md_file w))
  = files (run csv_file md_file w)
  /\ exists line,
       console (run csv_file md_file w) = (console w ++ [line])%list
       /\ console (run csv_file md_file (run csv_file md_file w))
          = (console w ++ [line; line])%list.
Proof.
  intros Hown Hne.
  assert (Hread : read_csv csv_file (files (run csv_file md_file w))
                  = read_csv csv_file (files w)).
  { apply Hown. rewrite csv_to_md_outcome. by apply run_outcome_frame. }
  assert (Hun : unwritable (run csv_file md_file w) = unwritable w).
  { rewrite csv_to_md_outcome. apply run_outcome_unwritable. }
  rewrite (csv_to_md_outcome _ _ _ csv_file md_file w) in *.
  set (w1 := run_outcome repr_shortest read_csv argsort_desc
               csv_file md_file w) in *.
  rewrite (csv_to_md_outcome _ _ _ csv_file md_file w1).
  unfold run_outcome. rewrite !Hread, !Hun.
  unfold w1, run_outcome. clear w1 Hread Hun.
  destruct (read_csv csv_file (files w)) as [e|df].
  { split; [done|]. eexists. split; [done|].
    by rewrite !console_print, <- app_assoc. }
  destruct (lookup_col "PROFIT_USDT" (columns df)) as [key|].
  2:{ split; [done|]. eexists. split; [done|].
      by rewrite !console_print, <- app_assoc. }
  destruct (decide (md_file ∈ unwritable w)).
  { split; [done|]. eexists. split; [done|].
    by rewrite !console_print, <- app_assoc. }
  destruct (render_rows repr_shortest _) as [ls [e|] ].
  - split.
    + unfold print, set_file; simpl. by rewrite insert_insert_eq.
    + eexists. split; [done|].
      unfold print, set_file; simpl. by rewrite <- app_assoc.
  - split.
    + unfold print, set_file; simpl. by rewrite insert_insert_eq.
    + eexists. split; [done|].
      unfold print, set_file; simpl. by rewrite <- app_assoc.
Qed.

End Run.

(** * Further properties of the formats *)

(** X6.  The text [format(x, '.nf')] gives for a finite float reads back
    as a number within half a unit of the last decimal of [x]: the
    displayed profit is a nearest two-decimal number. *)
Theorem formatted_text_is_nearest k x q :
  float_Q x = Some q ->
  exists p,
    parse_decimal (format_float_f (S k) x) = Some p
    /\ (Qabs (p - q) <= 1 # (2 * Z.to_pos (10 ^ Z.of_nat (S k))))%Q.
Proof.
  intros Hq.
  assert (Hfin : is_finite x = true) by (by destruct x).
  exists (Qmake (shown (S k) x) (Z.to_pos (10 ^ Z.of_nat (S k)))).
  split; [by apply parse_decimal_format|].
  rewrite (float_Q_fraction x q Hq).
  pose proof (shown_error (S k) x) as E.
  pose proof (fden_pos x) as D.
  assert (T : 0 < 10 ^ Z.of_nat (S k)) by (apply Z.pow_pos_nonneg; lia).
  set (t := 10 ^ Z.of_nat (S k)) in *.
  set (a := shown (S k) x) in *. set (n := fnum x) in *.
  set (d := fden x) in *.
  apply Qabs_Qle_condition.
  unfold Qle, Qminus, Qplus, Qopp; simpl.
  rewrite !Pos2Z.inj_mul, !Z2Pos.id by lia.
  split; nia.
Qed.

Lemma round_half_even_tie n d h :
  0 < d -> 2 * n = (2 * h + 1) * d ->
  round_half_even n d = if Z.even h then h else h + 1.
Proof.
  intros D Hn.
  destruct (round_half_even_spec n d D) as ([L U] & A & B).
  cbn zeta in *. set (q := round_half_even n d) in *.
  assert (Hq : q = h \/ q = h + 1) by nia.
  assert (Hs : Z.even (h + 1) = negb (Z.even h)).
  { change (h + 1) with (Z.succ h). by rewrite Z.even_succ, <- Z.negb_even. }
  destruct Hq as [Hq|Hq].
  - assert (E : Z.even q = true) by (apply B; nia).
    rewrite Hq in E. by rewrite E.
  - assert (E : Z.even q = true) by (apply A; nia).
    rewrite Hq, Hs in E. apply negb_true_iff in E. by rewrite E.
Qed.

(** X7.  A finite float exactly halfway between two neighbouring texts
    is written as the one whose last digit is even: with two decimals
    0.125 is written 0.12 and 0.375 is written 0.38.  The text is read
    with [parse_decimal]; [h] and [h + 1] are the two neighbours in
    units of the last decimal. *)
Theorem halfway_goes_to_even k x h :
  is_finite x = true ->
  2 * (Z.abs (fnum x) * 10 ^ Z.of_nat (S k)) = (2 * h + 1) * fden x ->
  exists p,
    parse_decimal (format_float_f (S k) x) = Some p
    /\ (p == Qmake (Z.sgn (fnum x) * (if Z.even h then h else h + 1))
                   (Z.to_pos (10 ^ Z.of_nat (S k))))%Q.
Proof.
  intros Hfin Hh. eexists. split; [by apply parse_decimal_format|].
  rewrite shown_fraction.
  pose proof (fden_pos x) as D.
  assert (T : 0 < 10 ^ Z.of_nat (S k)) by (apply Z.pow_pos_nonneg; lia).
  destruct (Z.ltb_spec (fnum x) 0) as [N|N].
  - rewrite (round_half_even_tie _ _ h D) by lia.
    rewrite Z.sgn_neg by lia. unfold Qeq; simpl. lia.
  - rewrite (round_half_even_tie _ _ h D) by lia.
    assert (P : 0 < fnum x).
    { destruct (Z.eq_dec (fnum x) 0) as [E|E]; [|lia].
      rewrite E in Hh. change (Z.abs 0) with 0 in Hh.
      rewrite Z.mul_0_l, Z.mul_0_r in Hh. symmetry in Hh.
      apply Z.mul_eq_0 in Hh. lia. }
    rewrite Z.sgn_pos by lia. unfold Qeq; simpl. lia.
Qed.

(** X8.  Formatting keeps the order: of two finite floats the larger
    never reads back as the smaller number. *)
Theorem formatting_keeps_order k x y qx qy :
  float_Q x = Some qx -> float_Q y = Some qy -> (qx <= qy)%Q ->
  exists px py,
    parse_decimal (format_float_f (S k) x) = Some px
    /\ parse_decimal (format_float_f (S k) y) = Some py
    /\ (px <= py)%Q.
Proof.
  intros Hx Hy Hle.
  assert (Fx : is_finite x = true) by (by destruct x).
  assert (Fy : is_finite y = true) by (by destruct y).
  exists (Qmake (shown (S k) x) (Z.to_pos (10 ^ Z.of_nat (S k)))),
         (Qmake (shown (S k) y) (Z.to_pos (10 ^ Z.of_nat (S k)))).
  split; [by apply parse_decimal_format|].
  split; [by apply parse_decimal_format|].
  unfold Qle; simpl. apply Z.mul_le_mono_nonneg_r; [lia|].
  by eapply shown_mono.
Qed.

Lemma int_to_float_exact z :
  z <> 0 -> Z.abs z < 2 ^ 53 ->
  int_to_float z = S754_finite (z <? 0) (Z.to_pos (Z.abs z)) 0.
Proof.
  intros Hz Hb. unfold int_to_float.
  destruct (Z.eqb_spec z 0); [done|].
  assert (Hl : Z.log2 (Z.abs z) < 53).
  { apply Z.log2_lt_pow2; lia. }
  destruct (Z.leb_spec (Z.log2 (Z.abs z) - 52) 0); [done | lia].
Qed.

Lemma fixed_digits_two_zeros a :
  0 <= a -> Dec.fixed_digits 2 (a * 100) = "00".
Proof.
  intros Ha. cbn [Dec.fixed_digits].
  replace (a * 100) with (a * 10 * 10) by lia.
  rewrite Z.div_mul, !Z.mod_mul by lia. reflexivity.
Qed.

Lemma of_Z_sign z :
  z <> 0 ->
  Dec.of_Z z = sign_text (z <? 0) +:+ Dec.of_Z_nonneg (Z.abs z).
Proof.
  intros Hz. unfold Dec.of_Z. destruct (Z.ltb_spec z 0).
  - by rewrite Z.abs_neq by lia.
  - by rewrite Z.abs_eq by lia.
Qed.

(** X9.  A whole-number cell below 2^53 in size is shown exactly:
    [format(z, '.2f')] is [str(z)] followed by ".00". *)
Theorem whole_numbers_show_exactly z :
  Z.abs z < 2 ^ 53 ->
  format_f 2 (SInt z) = inr (Dec.of_Z z +:+ ".00").
Proof.
  intros Hb. unfold format_f. f_equal.
  destruct (Z.eq_dec z 0) as [->|Hz]; [reflexivity|].
  rewrite (int_to_float_exact z Hz Hb), (of_Z_sign z Hz).
  unfold format_float_f, fixed_text, scaled_round. cbn [Z.leb Z.compare].
  rewrite Z2Pos.id by lia.
  change (2 ^ 0) with 1. change (10 ^ Z.of_nat 2) with 100.
  rewrite Z.mul_1_r, Z.div_mul by lia.
  rewrite fixed_digits_two_zeros by lia.
  by rewrite !append_assoc.
Qed.


(** * Further properties: which frames are written in full *)

Lemma cell_no_text dt c i v :
  no_text_column c = true -> cell dt c i = Some v -> is_text v = false.
Proof.
  unfold no_text_column. intros Hall Hc.
  destruct c as [l|l|l]; simpl in *.
  - destruct (l !! i); [|done]. injection Hc as <-. by destruct dt.
  - destruct (l !! i); [|done]. by injection Hc as <-.
  - rewrite forallb_forall in Hall.
    apply negb_true_iff, Hall, list_elem_of_In.
    by eapply list_elem_of_lookup_2.
Qed.

Lemma format_f_no_text k v :
  is_text v = false -> format_f k v = inr (format_float_f k (to_float v)).
Proof. by destruct v. Qed.

Lemma row_get_present df name i (p : Column -> bool) :
  wf_frame_b df = true -> (i < nrows df)%nat ->
  has_col p name df = true ->
  exists c v, lookup_col name (columns df) = Some c /\ p c = true
    /\ cell (common_dtype (columns df)) c i = Some v
    /\ row_get name (row_at df i) = inr v.
Proof.
  intros Hwf Hi Hcol.
  destruct (has_col_Some _ _ _ Hcol) as (c & Hlook & Hp).
  destruct (lookup_col_In _ _ _ Hlook) as [n Hin].
  destruct (cell_is_Some (common_dtype (columns df)) c i) as [v Hv].
  { by rewrite (wf_frame_col_len df n c Hwf Hin). }
  exists c, v. repeat split; try done.
  by rewrite (row_get_wf df name i Hwf Hi), Hlook, Hv.
Qed.

Lemma formattable_row repr df i :
  formattable_frame df = true -> (i < nrows df)%nat ->
  exists l, row_line repr (row_at df i) = inr l.
Proof.
  unfold formattable_frame. rewrite !andb_true_iff.
  intros ((((((Hwf & H1) & H2) & H3) & H4) & H5) & H6) Hi.
  destruct (row_get_present df _ i _ Hwf Hi H1) as (c1 & v1 & _ & _ & _ & G1).
  destruct (row_get_present df _ i _ Hwf Hi H2) as (c2 & v2 & _ & P2 & C2 & G2).
  destruct (row_get_present df _ i _ Hwf Hi H3) as (c3 & v3 & _ & P3 & C3 & G3).
  destruct (row_get_present df _ i _ Hwf Hi H4) as (c4 & v4 & _ & _ & _ & G4).
  destruct (row_get_present df _ i _ Hwf Hi H5) as (c5 & v5 & _ & P5 & C5 & G5).
  destruct (row_get_present df _ i _ Hwf Hi H6) as (c6 & v6 & _ & _ & _ & G6).
  unfold row_line.
  rewrite G1, G2, (format_f_no_text 2 v2 (cell_no_text _ _ _ _ P2 C2)),
    G3, (format_f_no_text 2 v3 (cell_no_text _ _ _ _ P3 C3)), G4, G5,
    (format_f_no_text 1 v5 (cell_no_text _ _ _ _ P5 C5)), G6.
  by eexists.
Qed.

Lemma formattable_rows repr df idx :
  formattable_frame df = true ->
  Forall (fun i => (i < nrows df)%nat) idx ->
  exists lines,
    Forall2 (fun i l => row_line repr (row_at df i) = inr l) idx lines.
Proof.
  intros Hf. induction 1 as [|i idx Hi _ [lines IH] ].
  - exists []. constructor.
  - destruct (formattable_row repr df i Hf Hi) as [l Hl].
    exists (l :: lines). by constructor.
Qed.

Section WrittenInFull.

Variable repr_shortest : spec_float -> string.
Variable read_csv : string -> gmap string string -> Exception + DataFrame.
Variable argsort_desc : Column -> list nat.
Hypothesis sort_ok : sort_contract argsort_desc.

Local Abbreviation run := (csv_to_md repr_shortest read_csv argsort_desc).

(** X11.  Numbers never fail to format.  When the six columns are
    present and none of the three columns formatted with a precision
    holds text, every row is written and the run succeeds -- also when
    cells are missing (they read nan) and when COIN holds numbers. *)
Theorem numbers_never_fail_to_format csv_file md_file w df :
  read_csv csv_file (files w) = inr df ->
  formattable_frame df = true ->
  md_file ∉ unwritable w ->
  exists idx lines,
    idx ≡ₚ seq 0 (nrows df)
    /\ Forall2 (fun i l => row_line repr_shortest (row_at df i) = inr l)
         idx lines
    /\ files (run csv_file md_file w) !! md_file
       = Some (join heading_lines +:+ join lines)
    /\ console (run csv_file md_file w)
       = (console w ++ [success_message (nrows df) md_file])%list.
Proof.
  intros Hread Hf Hw. pose proof Hf as Hf'.
  unfold formattable_frame in Hf'. rewrite !andb_true_iff in Hf'.
  destruct Hf' as ((((((Hwf & _) & H2) & _) & _) & _) & _).
  destruct (has_col_Some _ _ _ H2) as (key & Hkey & _).
  destruct (lookup_col_In _ _ _ Hkey) as [n Hin].
  pose proof (wf_frame_col_len df n key Hwf Hin) as Hlen.
  assert (Hidx : Forall (fun i => (i < nrows df)%nat) (argsort_desc key)).
  { rewrite <- Hlen. by apply argsort_in_range. }
  destruct (formattable_rows repr_shortest df _ Hf Hidx) as [lines Hlines].
  exists (argsort_desc key), lines.
  rewrite csv_to_md_outcome. unfold run_outcome.
  rewrite Hread, Hkey, decide_False by done.
  rewrite (iterrows_take_rows _ df Hwf (argsort_perm _ key _ sort_ok Hlen)).
  assert (Hr : Forall2 (fun r l => row_line repr_shortest r = inr l)
                 (row_at df <$> argsort_desc key) lines).
  { clear -Hlines. induction Hlines; simpl; by constructor. }
  rewrite (render_rows_all_ok _ _ lines Hr).
  rewrite files_print, files_set_file, console_print, console_set_file.
  cbn [nrows take_rows].
  destruct sort_ok as [Hperm _].
  repeat split; try done.
  - by rewrite (Hperm key), Hlen.
  - by rewrite (argsort_length _ key sort_ok), Hlen.
Qed.

(** X12.  A missing COIN column is noticed only when there is a row to
    write: with no data row the run succeeds; with at least one it stops
    at the first row, leaving the heading lines alone in the file, and
    prints the KeyError. *)
Theorem missing_coin_is_noticed_at_the_first_row csv_file md_file w df key :
  read_csv csv_file (files w) = inr df ->
  wf_frame_b df = true ->
  lookup_col "PROFIT_USDT" (columns df) = Some key ->
  lookup_col "COIN" (columns df) = None ->
  md_file ∉ unwritable w ->
  files (run csv_file md_file w) !! md_file = Some (join heading_lines)
  /\ console (run csv_file md_file w)
     = (console w
        ++ [if Nat.eqb (nrows df) 0
            then "Successfully wrote 0 rows to " +:+ md_file
            else "Error: 'COIN'"])%list.
Proof.
  intros Hread Hwf Hkey Hcoin Hw.
  destruct (lookup_col_In _ _ _ Hkey) as [n Hin].
  pose proof (wf_frame_col_len df n key Hwf Hin) as Hlen.
  assert (Hidx : Forall (fun i => (i < nrows df)%nat) (argsort_desc key)).
  { rewrite <- Hlen. by apply argsort_in_range. }
  pose proof (argsort_length _ key sort_ok) as Hl. rewrite Hlen in Hl.
  rewrite csv_to_md_outcome. unfold run_outcome.
  rewrite Hread, Hkey, decide_False by done.
  rewrite (iterrows_take_rows _ df Hwf (argsort_perm _ key _ sort_ok Hlen)).
  cbn [nrows take_rows]. rewrite Hl.
  destruct (argsort_desc key) as [|i idx].
  - simpl in Hl. rewrite <- Hl. cbn [fmap list_fmap render_rows Nat.eqb].
    rewrite files_print, files_set_file, console_print. split; reflexivity.
  - simpl in Hl. rewrite <- Hl. rewrite fmap_cons. cbn [render_rows Nat.eqb].
    assert (Hrow : row_line repr_shortest (row_at df i)
                   = inl (KeyError "COIN")).
    { unfold row_line, row_at. by rewrite row_get_missing. }
    rewrite Hrow, files_print, files_set_file, console_print.
    split; reflexivity.
Qed.

End WrittenInFull.

(** * The further properties on the sample inputs *)

Lemma only_the_output_path_witness :
  files (sample_run scenario_a_text) !! csv_path = Some scenario_a_text
  /\ unwritable (sample_run scenario_a_text) = ∅.
Proof.
  apply (only_the_output_path_is_written sample_repr
           (table_read_csv sample_table) stable_argsort_desc csv_path md_path
           (world_with scenario_a_text) csv_path).
  discriminate.
Defined.

Lemma early_failure_witness :
  files (sample_run scenario_b_text) = files (world_with scenario_b_text)
  /\ exists line, console (sample_run scenario_b_text)
                  = ([] ++ ["Error: " +:+ line])%list.
Proof.
  apply (early_failure_changes_no_file sample_repr
           (table_read_csv sample_table) stable_argsort_desc csv_path md_path
           (world_with scenario_b_text)).
  right; left. exists scenario_b_frame.
  split; [vm_compute; reflexivity | reflexivity].
Defined.

Lemma old_report_witness :
  files (sample_run scenario_a_text) !! md_path
  = files (csv_to_md sample_repr (table_read_csv sample_table)
             stable_argsort_desc csv_path md_path
             (world_with_old_report scenario_a_text)) !! md_path
  /\ is_Some (files (sample_run scenario_a_text) !! md_path).
Proof.
  apply (old_report_is_discarded sample_repr (table_read_csv sample_table)
           stable_argsort_desc csv_path md_path
           (world_with scenario_a_text)
           (world_with_old_report scenario_a_text) scenario_a_frame
           (ColFloat [f_10_5; f_m2_333; f_100])).
  - vm_compute; reflexivity.
  - vm_compute; reflexivity.
  - reflexivity.
  - apply sample_writable.
  - apply sample_writable.
Defined.

Lemma second_run_witness :
  files (csv_to_md sample_repr (table_read_csv sample_table)
           stable_argsort_desc csv_path md_path (sample_run scenario_a_text))
  = files (sample_run scenario_a_text)
  /\ exists line,
       console (sample_run scenario_a_text) = ([] ++ [line])%list
       /\ console (csv_to_md sample_repr (table_read_csv sample_table)
                     stable_argsort_desc csv_path md_path
                     (sample_run scenario_a_text))
          = ([] ++ [line; line])%list.
Proof.
  apply (second_run_changes_nothing sample_repr (table_read_csv sample_table)
           stable_argsort_desc csv_path md_path (world_with scenario_a_text)).
  - apply table_read_csv_reads_own_file.
  - discriminate.
Defined.

Lemma formatted_text_is_nearest_witness :
  exists p,
    parse_decimal (format_float_f 2 f_m2_333) = Some p
    /\ (Qabs (p - Qopp (5253448965327684 # 2251799813685248)) <= 1 # 200)%Q.
Proof.
  apply (formatted_text_is_nearest 1 f_m2_333). reflexivity.
Defined.

Lemma halfway_goes_to_even_witness :
  exists p,
    parse_decimal (format_float_f 2 f_0_125) = Some p /\ (p == 12 # 100)%Q.
Proof.
  apply (halfway_goes_to_even 1 f_0_125 12); reflexivity.
Defined.

Lemma formatting_keeps_order_witness :
  exists px py,
    parse_decimal (format_float_f 2 f_m2_333) = Some px
    /\ parse_decimal (format_float_f 2 f_10_5) = Some py
    /\ (px <= py)%Q.
Proof.
  apply (formatting_keeps_order 1 f_m2_333 f_10_5
           (Qopp (5253448965327684 # 2251799813685248)) (21 # 2)).
  - reflexivity.
  - reflexivity.
  - unfold Qle; simpl; lia.
Defined.

Lemma whole_numbers_witness : format_f 2 (SInt (-7)) = inr "-7.00".
Proof. apply (whole_numbers_show_exactly (-7)). reflexivity. Defined.


Lemma numbers_never_fail_witness :
  exists idx lines,
    idx ≡ₚ seq 0 2
    /\ Forall2 (fun i l => row_line sample_repr (row_at gap_frame i) = inr l)
         idx lines
    /\ files (more_run gap_text) !! md_path
       = Some (join heading_lines +:+ join lines)
    /\ console (more_run gap_text)
       = ([] ++ ["Successfully wrote 2 rows to full_simulation_results.md"])%list.
Proof.
  apply (numbers_never_fail_to_format sample_repr
           (table_read_csv more_samples) stable_argsort_desc
           stable_argsort_desc_contract csv_path md_path
           (world_with gap_text) gap_frame).
  - vm_compute; reflexivity.
  - vm_compute; reflexivity.
  - apply sample_writable.
Defined.

Lemma missing_coin_witness :
  files (more_run no_coin_text) !! md_path = Some (join heading_lines)
  /\ console (more_run no_coin_text) = ([] ++ ["Error: 'COIN'"])%list.
Proof.
  apply (missing_coin_is_noticed_at_the_first_row sample_repr
           (table_read_csv more_samples) stable_argsort_desc
           stable_argsort_desc_contract csv_path md_path
           (world_with no_coin_text) no_coin_frame (ColInt [2])).
  - vm_compute; reflexivity.
  - reflexivity.
  - reflexivity.
  - reflexivity.
  - apply sample_writable.
Defined.
